(** * CoachAI: retrieval and interaction orchestration

    A shallow embedding of [coachai/clients/cohere_client.py],
    [coachai/services/coach_service.py], the controller that forwards to the
    service and the block of [app.py] that records a query, with the
    collaborators the service consumes (knowledge repository, store client,
    generative model) modelled as an explicit world that is threaded through
    every effectful call. *)

From stdpp Require Import gmap strings list pretty sorting.
From Stdlib Require Import QArith.

Open Scope Z_scope.

(** ** Python values, exceptions and results *)

Module Py.

(** The exceptions that reach this code.  [RuntimeError] is what
    [CohereClient.embed] raises itself; the others come out of builtins
    ([TypeError], [ValueError], [IndexError], [OverflowError]) or out of a
    collaborator. *)
Inductive exn : Type :=
| RuntimeError (msg : string)
| TypeError
| ValueError
| IndexError
| OverflowError
| ProviderError (msg : string)
| StoreError (msg : string)
| ModelError (msg : string).

Inductive result (A : Type) : Type :=
| Ok (a : A)
| Raise (e : exn).
Arguments Ok {A} a.
Arguments Raise {A} e.

Definition rbind {A B} (r : result A) (k : A -> result B) : result B :=
  match r with
  | Ok a => k a
  | Raise e => Raise e
  end.

(** [try: r except Exception: h] on a pure computation. *)
Definition rcatch {A} (r : result A) (h : exn -> result A) : result A :=
  match r with
  | Ok a => Ok a
  | Raise e => h e
  end.

Definition raises {A} (r : result A) : Prop := exists e, r = Raise e.

(** A [str] is modelled by its UTF-8 encoding, one [Ascii.ascii] per byte:
    concatenation, equality, emptiness and [in] are then those of the bytes.
    Slicing counts code points ([take_str] below); folding case and
    stripping blanks go by the interpreter's Unicode tables ([Interp]). *)

(** A float: a finite value, given by the rational a double denotes
    exactly, or one of the values that denote no number.  Every double is
    here; that not every rational is a double only makes a statement about
    all floats say more. *)
Inductive float : Type :=
| Finite (q : Q)
| NegZero
| Inf (negative : bool)
| NaN.

Inductive value : Type :=
| VNone
| VStr (s : string)
| VInt (z : Z)
| VFloat (f : float).

(** What the interpreter does and is not reproduced here: [repr] of a
    float, [float] of a string ([None] is a [ValueError]), and [str.lower]
    and [str.strip], which go by its Unicode tables. *)
Class Interp : Type := {
  float_repr : float -> string;
  float_of_str : string -> option float;
  lower : string -> string;
  strip : string -> string
}.

(** [str(v)], which is what an f-string field prints. *)
Definition py_str `{Interp} (v : value) : string :=
  match v with
  | VNone => "None"
  | VStr s => s
  | VInt z => pretty z
  | VFloat f => float_repr f
  end.

(** [float(z)] for an int: the nearest double, ties to even, which keeps
    53 significant bits; [None] when that is beyond the largest double. *)
Definition double_of_int (z : Z) : option Z :=
  let a := Z.abs z in
  let e := Z.max 0 (Z.log2 a + 1 - 53) in
  let m := Z.shiftr a e in
  let r := a - Z.shiftl m e in
  let half := Z.shiftl 1 (e - 1) in
  let m' :=
    if e =? 0 then m
    else if r <? half then m
    else if half <? r then m + 1
    else if Z.even m then m else m + 1 in
  let v := Z.shiftl m' e in
  if 2 ^ 1024 <=? v then None else Some (Z.sgn z * v).

(** [float(v)] *)
Definition py_float `{Interp} (v : value) : result float :=
  match v with
  | VNone => Raise TypeError
  | VStr s => match float_of_str s with Some f => Ok f | None => Raise ValueError end
  | VInt z =>
      match double_of_int z with
      | Some d => Ok (Finite (inject_Z d))
      | None => Raise OverflowError
      end
  | VFloat f => Ok f
  end.

Definition truthy_str (s : string) : bool :=
  match s with
  | EmptyString => false
  | String _ _ => true
  end.

(** [bool(o)] for an [Optional[str]]. *)
Definition truthy_opt (o : option string) : bool :=
  match o with
  | Some s => truthy_str s
  | None => false
  end.

(** [a or b] for two [Optional[str]]. *)
Definition or_opt (a b : option string) : option string :=
  if truthy_opt a then a else b.

(** [a or d] where [d] is a string literal. *)
Definition or_default (a : option string) (d : string) : string :=
  match a with
  | Some s => if truthy_str s then s else d
  | None => d
  end.

(** A byte [10xxxxxx] continues the code point begun before it. *)
Definition is_continuation (c : Ascii.ascii) : bool :=
  let n := Ascii.nat_of_ascii c in
  ((128 <=? n) && (n <? 192))%nat.

(** [len(s)]: the code points of [s], one for each byte that begins one. *)
Fixpoint py_len (s : string) : nat :=
  match s with
  | EmptyString => 0
  | String c r => if is_continuation c then py_len r else S (py_len r)
  end.

(** The bytes of the first [n] code points of [s]: a byte that continues a
    code point goes with it, and the byte that begins the next one ends the
    count. *)
Fixpoint take_points (n : nat) (s : string) : string :=
  match s with
  | EmptyString => EmptyString
  | String c r =>
      if is_continuation c then String c (take_points n r)
      else
        match n with
        | O => EmptyString
        | S k => String c (take_points k r)
        end
  end.

(** [s[:n]] on a string *)
Definition take_str (n : nat) (s : string) : string :=
  match n with
  | O => EmptyString
  | S _ => take_points n s
  end.

(** [v[:n]]; only a string can be sliced. *)
Definition py_slice (n : nat) (v : value) : result string :=
  match v with
  | VStr s => Ok (take_str n s)
  | _ => Raise TypeError
  end.

(** [d.get(k)] and [d.get(k, dflt)] *)
Definition get (d : gmap string value) (k : string) : value :=
  default VNone (d !! k).

Definition get_or (d : gmap string value) (k : string) (dflt : value) : value :=
  default dflt (d !! k).



Fixpoint join (sep : string) (l : list string) : string :=
  match l with
  | [] => EmptyString
  | [x] => x
  | x :: r => x +:+ sep +:+ join sep r
  end.

Definition digit (z : Z) : Ascii.ascii := Ascii.ascii_of_nat (48 + Z.to_nat (z mod 10)).

(** |q| * 10^4 rounded to the nearest integer, exact ties to even, which is
    how [format] rounds the exact value of a float. *)
Definition round4 (q : Q) : Z :=
  let num := Z.abs (Qnum q) * 10000 in
  let den := Z.pos (Qden q) in
  let fl := num / den in
  let r := num mod den in
  if 2 * r <? den then fl
  else if den <? 2 * r then fl + 1
  else if Z.even fl then fl else fl + 1.

Definition decimals4 (n : Z) : string :=
  String (digit (n / 1000))
    (String (digit (n / 100)) (String (digit (n / 10)) (String (digit n) EmptyString))).

(** A rational with four digits after the point. *)
Definition fixed4 (q : Q) : string :=
  let n := round4 q in
  (if Qnum q <? 0 then "-" else "") +:+ pretty (n / 10000) +:+ "." +:+ decimals4 n.

(** [f"{x:.4f}"] *)
Definition format_4f (f : float) : string :=
  match f with
  | Finite q => fixed4 q
  | NegZero => "-0.0000"
  | Inf false => "inf"
  | Inf true => "-inf"
  | NaN => "nan"
  end.

End Py.

Export Py.

(** ** Configuration ([coachai.core.config.Config])

    The module is not part of the sources at hand; the settings the code
    reads are taken as a record.  A setting that may be unset or [None] is an
    [option]. *)

Record Config : Type := {
  COHERE_API_KEY : option string;
  COHERE_MODEL : option string;
  PGVECTOR_DIMENSION : option Z;
  EMBED_MODEL_NAME : string;
  MODEL_NAME : string;
  TOP_K : Z;
  MIN_PIXELS : Z;
  MAX_PIXELS : Z;
  SUPABASE_STORAGE_BUCKET : string
}.

(** ** The Cohere SDK, as far as the wrapper calls it *)

Module cohere.

Definition vector : Type := list Q.

(** A connected SDK client.  [embeddings_create] is the call of the newer
    SDK, already unpacked to [[e.embedding for e in resp.embeddings]];
    [embed] is the call of the older one, unpacked to [resp.embeddings]. *)
Record client : Type := {
  embeddings_create : string -> list string -> result (list vector);
  embed : string -> list string -> result (list vector)
}.

(** The imported module: [Client(api_key)] may raise. *)
Record sdk : Type := {
  Client : string -> result client
}.

End cohere.

(** ** [CohereClient] *)

Module CohereClient.

Record t : Type := {
  api_key : option string;
  model : string;
  _client : option cohere.client
}.

(** [cfg_model.strip().lower() in ('small', 'medium', 'large')] *)
Definition legacy_alias `{Interp} (s : string) : bool :=
  let k := lower (strip s) in
  bool_decide (k = "small") || bool_decide (k = "medium") || bool_decide (k = "large").

(** [__init__]; [sdk] is [None] when [import cohere] failed. *)
Definition init `{Interp} (cfg : Config) (sdk : option cohere.sdk)
    (api_key model : option string) : t :=
  let key := or_opt api_key (COHERE_API_KEY cfg) in
  let cfg_model :=
    match COHERE_MODEL cfg with
    | Some s => if legacy_alias s then Some EmptyString else Some s
    | None => None
    end in
  let m := or_default (or_opt model cfg_model) "embed-english-light-v3.0" in
  let c :=
    match key, sdk with
    | Some k, Some md =>
        if truthy_str k then
          match cohere.Client md k with
          | Ok c => Some c
          | Raise _ => None
          end
        else None
    | _, _ => None
    end in
  {| api_key := key; model := m; _client := c |}.

Definition is_available (self : t) : bool :=
  match _client self with
  | Some _ => true
  | None => false
  end.

(** The two failures of the spec's taxonomy are both a [RuntimeError] in
    the source, told apart by their message. *)
Definition ProviderUnavailable : exn :=
  RuntimeError "Cohere client is not available or COHERE_API_KEY not set".

Definition DimensionMismatch (width : nat) (dim : Z) : exn :=
  RuntimeError ("Cohere embedding dimension " +:+ pretty width
                +:+ " does not match PGVECTOR_DIMENSION=" +:+ pretty dim
                +:+ ". Update COHERE_MODEL or PGVECTOR_DIMENSION.").

(** [getattr(Config, 'PGVECTOR_DIMENSION', 384) or 384] *)
Definition target_dimension (cfg : Config) : Z :=
  match PGVECTOR_DIMENSION cfg with
  | Some d => if d =? 0 then 384 else d
  | None => 384
  end.

(** The provider call with its fallback to the older SDK shape. *)
Definition provider_vectors (c : cohere.client) (m : string) (texts : list string)
    : result (list cohere.vector) :=
  rcatch (cohere.embeddings_create c m texts) (fun _ => cohere.embed c m texts).

Definition embed (cfg : Config) (self : t) (texts : list string)
    : result (list cohere.vector) :=
  if negb (is_available self) then Raise ProviderUnavailable
  else
    match _client self with
    | None => Raise ProviderUnavailable
    | Some c =>
        rbind (provider_vectors c (model self) texts) (fun vectors =>
        let dim := target_dimension cfg in
        match vectors with
        | v0 :: _ =>
            if bool_decide (Z.of_nat (length v0) = dim) then Ok vectors
            else Raise (DimensionMismatch (length v0) dim)
        | [] => Ok vectors
        end)
    end.

End CohereClient.

(** ** Messages for the generative model

    [{'role': r, 'content': c}], where [c] is a string (system turn) or a
    list of typed parts (user turn).  A picture is an opaque handle: this
    code never decodes it. *)

Definition image : Type := positive.

Inductive part : Type :=
| ImagePart (img : image) (min_pixels max_pixels : Z)
| TextPart (text : string).

Inductive content : Type :=
| Plain (text : string)
| Parts (parts : list part).

Record message : Type := {
  role : string;
  body : content
}.

(** ** The rows of the store (data model of the spec) *)

Definition row_id : Type := positive.
Definition bytes : Type := list Byte.byte.

Module KnowledgeEntry.
Record t : Type := {
  id : row_id;
  topic : string;
  content : string;
  embedding : cohere.vector
}.
End KnowledgeEntry.

Module Attachment.
Record t : Type := {
  owner_user_id : string;
  bucket : string;
  storage_path : string;
  content_type : string;
  query_id : option row_id;
  metadata : gmap string value
}.
End Attachment.

Module UserQuery.
Record t : Type := {
  user_id : string;
  text_query : string;
  image_attachment_ids : list row_id
}.
End UserQuery.

Module AnswerRecord.
Record t : Type := {
  question_id : option row_id;
  user_id : option string;
  user_answer : string;
  model_answer : string;
  grade : option string;
  feedback : option string
}.
End AnswerRecord.

Module GeneratedQuestion.
Record t : Type := {
  lesson_id : option row_id;
  query_id : option row_id;
  author_model : string;
  question_text : string
}.
End GeneratedQuestion.

Module EmbeddingRecord.
Record t : Type := {
  source_table : string;
  source_id : row_id;
  vector : cohere.vector;
  metadata : gmap string value
}.
End EmbeddingRecord.

(** The dict handed to [table_insert], by the table it is meant for. *)
Inductive record : Type :=
| RUserQuery (r : UserQuery.t)
| RAnswer (r : AnswerRecord.t)
| RGeneratedQuestion (r : GeneratedQuestion.t).

(** ** The world around the service *)

(** What can happen to one call into the store: it takes effect, it comes
    back empty-handed ([None], no [data]) without effect, or it raises. *)
Inductive fault : Type := NoFault | Empty | Fails.

Inductive call : Type :=
| CUploadAttachment (user_id bucket path : string) (data : bytes) (content_type : string)
| CTableInsert (table : string) (rec : record)
| CTableUpdate (table : string) (query_id : row_id) (metadata : gmap string value)
               (key_column : string) (key : row_id)
| CAddEmbedding (source_table : string) (source_id : row_id) (vector : cohere.vector)
                (metadata : gmap string value)
| CLog (msg : string).

(** What a call of the service reads but does not change.  [repr] is
    [repr(e)] of an exception that came out of the store: its text follows
    from the class and the arguments the store gave it. *)
Record Env : Type := {
  connected : bool;
  provider : CohereClient.t;
  lessons : list KnowledgeEntry.t;
  similarity : cohere.vector -> cohere.vector -> Q;
  generate : list message -> option Z -> option Q -> result string;
  faults : nat -> fault;
  entropy : nat -> string;
  repr : exn -> string
}.

Record Tables : Type := {
  attachments : gmap row_id Attachment.t;
  user_queries : list (row_id * UserQuery.t);
  answers : list (row_id * AnswerRecord.t);
  generated_questions : list (row_id * GeneratedQuestion.t);
  embeddings : list EmbeddingRecord.t;
  next_id : row_id
}.

Record State : Type := {
  db : Tables;
  tick : nat;
  calls : list (call * fault);
  logged : list string
}.

(** State and exceptions: what was written before a [raise] stays written. *)
Definition M (A : Type) : Type := State -> result A * State.

Definition ret {A} (a : A) : M A := fun s => (Ok a, s).

Definition raise {A} (e : exn) : M A := fun s => (Raise e, s).

Definition bind {A B} (m : M A) (k : A -> M B) : M B :=
  fun s =>
    match m s with
    | (Ok a, s') => k a s'
    | (Raise e, s') => (Raise e, s')
    end.

(** [try: m except Exception as e: h e] *)
Definition try_except {A} (m : M A) (h : exn -> M A) : M A :=
  fun s =>
    match m s with
    | (Ok a, s') => (Ok a, s')
    | (Raise e, s') => h e s'
    end.

Definition lift {A} (r : result A) : M A := fun s => (r, s).

Declare Scope py_scope.
Delimit Scope py_scope with py.
Notation "x <- m ;; k" := (bind m (fun x => k))
  (at level 100, m at next level, right associativity) : py_scope.
Notation "m ;; k" := (bind m (fun _ => k))
  (at level 100, right associativity) : py_scope.
Open Scope py_scope.

Definition nl : string := String (Ascii.ascii_of_nat 10) EmptyString.

(** The state after a call [c] that met the fate [f] and left the tables
    as [t]: the clock advances and the call is recorded. *)
Definition recorded (c : call) (f : fault) (t : Tables) (s : State) : State :=
  {| db := t; tick := S (tick s); calls := calls s ++ [(c, f)]; logged := logged s |}.

(** One call into the store: the world decides its fate. *)
Definition step (E : Env) (c : call) : M fault :=
  fun s =>
    let f := faults E (tick s) in
    (Ok f, recorded c f (db s) s).

Definition with_db (g : Tables -> Tables) : M unit :=
  fun s => (Ok tt, {| db := g (db s); tick := tick s; calls := calls s;
                      logged := logged s |}).

Definition add_attachment (a : Attachment.t) (t : Tables) : Tables :=
  {| attachments := <[next_id t := a]> (attachments t);
     user_queries := user_queries t;
     answers := answers t;
     generated_questions := generated_questions t;
     embeddings := embeddings t;
     next_id := Pos.succ (next_id t) |}.

Definition link (qid : row_id) (md : gmap string value) (a : Attachment.t) : Attachment.t :=
  {| Attachment.owner_user_id := Attachment.owner_user_id a;
     Attachment.bucket := Attachment.bucket a;
     Attachment.storage_path := Attachment.storage_path a;
     Attachment.content_type := Attachment.content_type a;
     Attachment.query_id := Some qid;
     Attachment.metadata := md |}.

Definition update_attachment (aid qid : row_id) (md : gmap string value) (t : Tables) : Tables :=
  {| attachments := alter (link qid md) aid (attachments t);
     user_queries := user_queries t;
     answers := answers t;
     generated_questions := generated_questions t;
     embeddings := embeddings t;
     next_id := next_id t |}.

Definition add_record (r : record) (t : Tables) : Tables :=
  {| attachments := attachments t;
     user_queries :=
       match r with
       | RUserQuery q => user_queries t ++ [(next_id t, q)]
       | _ => user_queries t
       end;
     answers :=
       match r with
       | RAnswer a => answers t ++ [(next_id t, a)]
       | _ => answers t
       end;
     generated_questions :=
       match r with
       | RGeneratedQuestion g => generated_questions t ++ [(next_id t, g)]
       | _ => generated_questions t
       end;
     embeddings := embeddings t;
     next_id := Pos.succ (next_id t) |}.

Definition add_embedding (e : EmbeddingRecord.t) (t : Tables) : Tables :=
  {| attachments := attachments t;
     user_queries := user_queries t;
     answers := answers t;
     generated_questions := generated_questions t;
     embeddings := embeddings t ++ [e];
     next_id := next_id t |}.

(** ** The store client ([coachai.clients.supabase_client]) *)

Module SupabaseClient.

(** Modelled from the spec: the store client is not among the sources.
    [insert(table, record) -> record_with_id]: the record gets the next
    identifier of the store; what comes back is the [id] of
    [res.data[0]], or nothing when the response carries no data. *)
Definition table_insert (E : Env) (table : string) (rec : record) : M (option row_id) :=
  f <- step E (CTableInsert table rec);;
  match f with
  | Fails => raise (StoreError "table_insert")
  | Empty => ret None
  | NoFault =>
      fun s => let i := next_id (db s) in bind (with_db (add_record rec)) (fun _ => ret (Some i)) s
  end.

(** Modelled from the spec: [update(table, fields, key_column, key_value)]
    for the fields [query_id] and [metadata], which only the attachment
    rows have. *)
Definition table_update (E : Env) (table : string) (qid : row_id)
    (md : gmap string value) (key_column : string) (key : row_id) : M unit :=
  f <- step E (CTableUpdate table qid md key_column key);;
  match f with
  | Fails => raise (StoreError "table_update")
  | Empty => ret tt
  | NoFault =>
      if bool_decide (table = "attachments") && bool_decide (key_column = "id")
      then with_db (update_attachment key qid md)
      else ret tt
  end.

End SupabaseClient.

(** ** The knowledge repository ([coachai.repositories.knowledge_repository]) *)

Module KnowledgeRepository.

Inductive supabase : Type := Supabase.

(** Modelled from the spec: the repository is not among the sources.  The
    store connection exists or it does not. *)
Definition _get_supabase (E : Env) : option supabase :=
  if connected E then Some Supabase else None.

(** Modelled from the spec: [upload_blob(bucket, path, bytes, content_type)
    -> {id, path}], which creates the Attachment row with [query_id] null
    and no metadata.  The result is the [id] of the returned dict, if any. *)
Definition upload_attachment (E : Env) (user_id bucket path : string) (data : bytes)
    (content_type : string) : M (option row_id) :=
  f <- step E (CUploadAttachment user_id bucket path data content_type);;
  match f with
  | Fails => raise (StoreError "upload_attachment")
  | Empty => ret None
  | NoFault =>
      fun s =>
        let i := next_id (db s) in
        bind (with_db (add_attachment
                {| Attachment.owner_user_id := user_id;
                   Attachment.bucket := bucket;
                   Attachment.storage_path := path;
                   Attachment.content_type := content_type;
                   Attachment.query_id := None;
                   Attachment.metadata := ∅ |}))
             (fun _ => ret (Some i)) s
  end.

(** Modelled from the spec: texts are embedded by the provider adapter
    (section 4.1), one vector per text. *)
Definition embed_texts (E : Env) (cfg : Config) (texts : list string)
    : result (list cohere.vector) :=
  CohereClient.embed cfg (provider E) texts.

(** Modelled from the spec: the side index row keyed by
    [(source_table, source_id)]. *)
Definition add_embedding_for_source (E : Env) (source_table : string) (source_id : row_id)
    (v : cohere.vector) (md : gmap string value) : M unit :=
  f <- step E (CAddEmbedding source_table source_id v md);;
  match f with
  | Fails => raise (StoreError "add_embedding_for_source")
  | Empty => ret tt
  | NoFault =>
      with_db (add_embedding {| EmbeddingRecord.source_table := source_table;
                                EmbeddingRecord.source_id := source_id;
                                EmbeddingRecord.vector := v;
                                EmbeddingRecord.metadata := md |})
  end.

(** Modelled from the spec: failures are logged, not surfaced; the log is a
    list of lines. *)
Definition _log (E : Env) (msg : string) : M unit :=
  f <- step E (CLog msg);;
  match f with
  | Fails => raise (StoreError "_log")
  | _ => fun s => (Ok tt, {| db := db s; tick := tick s; calls := calls s;
                             logged := logged s ++ [msg] |})
  end.

(** Modelled from the spec: the cached entries the principal may read. *)
Definition all (E : Env) : list KnowledgeEntry.t := lessons E.

(** Ranking: higher similarity first. *)
Definition by_similarity (a b : KnowledgeEntry.t * Q) : Prop :=
  Qle_bool (snd b) (snd a) = true.

#[global] Instance by_similarity_dec : RelDecision by_similarity.
Proof. intros a b. unfold by_similarity. apply _. Defined.

Definition ranked (E : Env) (v : cohere.vector) : list (KnowledgeEntry.t * Q) :=
  merge_sort by_similarity
    (map (fun l => (l, similarity E v (KnowledgeEntry.embedding l))) (lessons E)).

Definition to_entry (p : KnowledgeEntry.t * Q) : gmap string value :=
  <["id" := VInt (Z.pos (KnowledgeEntry.id (fst p)))]>
    (<["topic" := VStr (KnowledgeEntry.topic (fst p))]>
       (<["content" := VStr (KnowledgeEntry.content (fst p))]>
          {["similarity" := VFloat (Finite (snd p))]})).

(** Modelled from the spec (section 4.3 and the store's
    [search(vector, top_k) -> ranked entries]): the query is embedded, and
    a failure to embed gives no entries; the rows the current principal may
    read are ranked by descending similarity and the first [top_k] are
    returned; a [top_k] below 1 is rejected. *)
Definition search (E : Env) (cfg : Config) (query : string) (top_k : Z)
    : result (list (gmap string value)) :=
  match embed_texts E cfg [query] with
  | Raise _ => Ok []
  | Ok [] => Ok []
  | Ok (v :: _) =>
      if top_k <? 1 then Raise ValueError
      else Ok (map to_entry (take (Z.to_nat top_k) (ranked E v)))
  end.

End KnowledgeRepository.

(** ** The generative model ([coachai.services.model_handler]) *)

Module ModelHandler.

(** [generate(messages, max_new_tokens=..., temperature=...)]: the model is
    a collaborator, so its answer is whatever the world gives. *)
Definition generate (E : Env) (messages : list message) (max_new_tokens : option Z)
    (temperature : option Q) : result string :=
  generate E messages max_new_tokens temperature.

End ModelHandler.

(** [uuid.uuid4().hex]: the world's entropy at this instant; drawing it
    advances the clock. *)
Definition uuid4_hex (E : Env) : M string :=
  fun s => (Ok (entropy E (tick s)),
            {| db := db s; tick := S (tick s); calls := calls s; logged := logged s |}).

(** ** [CoachService] *)

Module CoachService.

(** [self]: the configuration and the principal.  The repository and the
    model handler it holds are the world ([Env], [State]). *)
Record t : Type := {
  config : Config;
  current_user_id : option string
}.

Definition init (cfg : Config) : t :=
  {| config := cfg; current_user_id := None |}.

(** [str(user_id) if user_id else None]; the repository is told the same
    principal. *)
Definition set_user_context (self : t) (user_id : option string) : t :=
  {| config := config self;
     current_user_id := if truthy_opt user_id then user_id else None |}.

(** [top_k or self.config.TOP_K] *)
Definition or_top_k (top_k : option Z) (dflt : Z) : Z :=
  match top_k with
  | Some k => if k =? 0 then dflt else k
  | None => dflt
  end.

Definition find_relevant (E : Env) (self : t) (query : string) (top_k : option Z)
    : result (list (gmap string value)) :=
  KnowledgeRepository.search E (config self) query (or_top_k top_k (TOP_K (config self))).

(** The entries a prompt is built from: retrieval is run again when none
    were handed in, and its failure leaves none. *)
Definition retrieved (E : Env) (self : t) (query : string)
    (relevant : list (gmap string value)) : list (gmap string value) :=
  match relevant with
  | [] =>
      match find_relevant E self query (Some (TOP_K (config self))) with
      | Ok r => r
      | Raise _ => []
      end
  | _ :: _ => relevant
  end.

Section Prompts.
Context `{Interp}.

Definition sim_str (sim : value) : result string :=
  match sim with
  | VNone => Ok "N/A"
  | _ => rbind (py_float sim) (fun q => Ok (format_4f q))
  end.

Definition retrieved_line (l : gmap string value) : result string :=
  let lid := get l "id" in
  let topic := get_or l "topic" (VStr "") in
  let content_text := get_or l "content" (VStr "") in
  let sim := get l "similarity" in
  rbind (sim_str sim) (fun sim_str =>
  Ok ("ID: " +:+ py_str lid +:+ nl +:+ "Topic: " +:+ py_str topic +:+ nl
      +:+ "Similarity: " +:+ sim_str +:+ nl +:+ py_str content_text +:+ nl +:+ "---")).

Fixpoint retrieved_lines (relevant : list (gmap string value)) : result (list string) :=
  match relevant with
  | [] => Ok []
  | l :: rest =>
      rbind (retrieved_line l) (fun x =>
      rbind (retrieved_lines rest) (fun xs => Ok (x :: xs)))
  end.

Definition retrieved_section (relevant : list (gmap string value)) : result string :=
  match relevant with
  | _ :: _ =>
      rbind (retrieved_lines relevant) (fun lines =>
      Ok ("Retrieved documents:" +:+ nl +:+ join nl lines))
  | [] => Ok "Retrieved documents: none available."
  end.

Definition system_prompt : string :=
  "You are an expert learning coach with advanced visual analysis capabilities. Use the retrieved documents to ground answers and cite document IDs when relevant.".

Definition user_prompt (section query : string) : string :=
  section +:+ nl +:+ nl +:+ "Question: " +:+ query +:+ nl +:+ nl
  +:+ "Provide a clear, educational explanation that directly uses the retrieved documents.".

(** The [messages] of [generate_explanation], from the entries the prompt
    is built from. *)
Definition assemble (self : t) (query : string) (relevant : list (gmap string value))
    (img : option image) : result (list message) :=
  rbind (retrieved_section relevant) (fun section =>
  let content :=
    match img with
    | Some i => [ImagePart i (MIN_PIXELS (config self)) (MAX_PIXELS (config self))]
    | None => []
    end in
  let content := content ++ [TextPart (user_prompt section query)] in
  Ok [ {| role := "system"; body := Plain system_prompt |};
       {| role := "user"; body := Parts content |} ]).

Definition explanation_messages (E : Env) (self : t) (query : string)
    (relevant : list (gmap string value)) (img : option image) : result (list message) :=
  assemble self query (retrieved E self query relevant) img.

Definition generate_explanation (E : Env) (self : t) (query : string)
    (relevant : list (gmap string value)) (img : option image) : result string :=
  rbind (explanation_messages E self query relevant img) (fun messages =>
  ModelHandler.generate E messages None None).

Definition evaluation_line (r : gmap string value) : result string :=
  rbind (py_slice 300 (get_or r "content" (VStr ""))) (fun c =>
  Ok ("ID:" +:+ py_str (get r "id") +:+ " Topic:" +:+ py_str (get r "topic") +:+ nl +:+ c)).

Fixpoint evaluation_lines (relevant : list (gmap string value)) : result (list string) :=
  match relevant with
  | [] => Ok []
  | r :: rest =>
      rbind (evaluation_line r) (fun x =>
      rbind (evaluation_lines rest) (fun xs => Ok (x :: xs)))
  end.

Definition evaluation_prompt (relevant : list (gmap string value))
    (question student_answer correct_concept : string) : result string :=
  match relevant with
  | _ :: _ =>
      rbind (evaluation_lines relevant) (fun lines =>
      Ok ("Retrieved documents:" +:+ nl +:+ join nl lines +:+ nl +:+ nl
          +:+ "Evaluate this student answer in the context of the retrieved documents."
          +:+ nl +:+ "Question: " +:+ question +:+ nl +:+ "Answer: " +:+ student_answer
          +:+ nl +:+ "Key Concept: " +:+ correct_concept +:+ nl
          +:+ "Provide a score and brief feedback citing any documents used."))
  | [] =>
      Ok ("Evaluate this student answer." +:+ nl +:+ "Question: " +:+ question +:+ nl
          +:+ "Answer: " +:+ student_answer +:+ nl +:+ "Key Concept: " +:+ correct_concept
          +:+ nl +:+ "Provide a score and brief feedback.")
  end.

(** The entries [evaluate_answer] retrieves: [question or correct_concept]
    is the query, and a failure leaves none. *)
Definition evaluation_relevant (E : Env) (self : t) (question correct_concept : string)
    : list (gmap string value) :=
  match find_relevant E self (if truthy_str question then question else correct_concept)
          (Some (TOP_K (config self))) with
  | Ok r => r
  | Raise _ => []
  end.

Definition evaluation_messages (E : Env) (self : t)
    (question student_answer correct_concept : string) : result (list message) :=
  rbind (evaluation_prompt (evaluation_relevant E self question correct_concept)
           question student_answer correct_concept) (fun prompt =>
  Ok [ {| role := "user"; body := Parts [TextPart prompt] |} ]).

Definition answer_record (self : t) (student_answer resp : string) : AnswerRecord.t :=
  {| AnswerRecord.question_id := None;
     AnswerRecord.user_id := current_user_id self;
     AnswerRecord.user_answer := student_answer;
     AnswerRecord.model_answer := resp;
     AnswerRecord.grade := None;
     AnswerRecord.feedback := None |}.

Definition evaluate_answer (E : Env) (self : t)
    (question student_answer correct_concept : string) : M string :=
  messages <- lift (evaluation_messages E self question student_answer correct_concept);;
  resp <- lift (ModelHandler.generate E messages (Some 512) None);;
  try_except
    (let sup := KnowledgeRepository._get_supabase E in
     if bool_decide (sup <> None) && truthy_opt (current_user_id self) then
       SupabaseClient.table_insert E "answers" (RAnswer (answer_record self student_answer resp));;
       ret tt
     else ret tt)
    (fun _ => ret tt);;
  ret resp.

End Prompts.

(** [content_types[i] if content_types and i < len(content_types) else dflt] *)
Definition content_type_at (content_types : option (list string)) (i : nat) : option string :=
  match content_types with
  | Some l => l !! i
  | None => None
  end.

(** [f"attachments/{uuid.uuid4().hex}_{i}.png"] *)
Definition attachment_path (hex : string) (i : nat) : string :=
  "attachments/" +:+ hex +:+ "_" +:+ pretty i +:+ ".png".

(** The upload loop of [store_user_query], from position [i] on. *)
Fixpoint upload_all (E : Env) (self : t) (user_id : string)
    (content_types : option (list string)) (i : nat) (image_bytes_list : list bytes)
    (attachment_ids : list row_id) : M (list row_id) :=
  match image_bytes_list with
  | [] => ret attachment_ids
  | b :: rest =>
      let bucket := SUPABASE_STORAGE_BUCKET (config self) in
      hex <- uuid4_hex E;;
      let path := attachment_path hex i in
      att <- KnowledgeRepository.upload_attachment E user_id bucket path b
               (default "image/png" (content_type_at content_types i));;
      upload_all E self user_id content_types (S i) rest
        (match att with
         | Some a => attachment_ids ++ [a]
         | None => attachment_ids
         end)
  end.

Definition backfill_metadata (qid : row_id) (user_id : string)
    (content_types : option (list string)) (idx : nat) : gmap string value :=
  <["source" := VStr "user_query"]>
    (<["query_id" := VStr (pretty qid)]>
       (<["user_id" := VStr user_id]>
          (<["index" := VInt (Z.of_nat idx)]>
             {["content_type" := match content_type_at content_types idx with
                                 | Some c => VStr c
                                 | None => VNone
                                 end]}))).

(** The back-fill loop of [store_user_query], from position [idx] on. *)
Fixpoint backfill (E : Env) (qid : row_id) (user_id : string)
    (content_types : option (list string)) (idx : nat) (attachment_ids : list row_id)
    : M unit :=
  match attachment_ids with
  | [] => ret tt
  | aid :: rest =>
      try_except
        (let md := backfill_metadata qid user_id content_types idx in
         SupabaseClient.table_update E "attachments" qid md "id" aid)
        (fun e =>
           try_except
             (KnowledgeRepository._log E
                ("store_user_query: failed to update attachment id=" +:+ pretty aid
                 +:+ " query_id=" +:+ pretty qid +:+ ": " +:+ repr E e))
             (fun _ => ret tt));;
      backfill E qid user_id content_types (S idx) rest
  end.

Definition store_user_query (E : Env) (self : t) (user_id text_query : string)
    (image_bytes_list : option (list bytes)) (content_types : option (list string))
    : M (option row_id) :=
  try_except
    (attachment_ids <-
       match image_bytes_list with
       | Some ((_ :: _) as l) => upload_all E self user_id content_types 0 l []
       | _ => ret []
       end;;
     emb <- lift (rbind (KnowledgeRepository.embed_texts E (config self) [text_query])
                    (fun vs => match vs with
                               | v :: _ => Ok v
                               | [] => Raise IndexError
                               end));;
     let sup := KnowledgeRepository._get_supabase E in
     qid <-
       match sup with
       | Some _ =>
           SupabaseClient.table_insert E "user_queries"
             (RUserQuery {| UserQuery.user_id := user_id;
                            UserQuery.text_query := text_query;
                            UserQuery.image_attachment_ids := attachment_ids |})
       | None => ret None
       end;;
     match sup, qid, attachment_ids with
     | Some _, Some q, _ :: _ => backfill E q user_id content_types 0 attachment_ids
     | _, _, _ => ret tt
     end;;
     match qid with
     | Some q =>
         KnowledgeRepository.add_embedding_for_source E "user_queries" q emb
           {["source" := VStr "user_query"]}
     | None => ret tt
     end;;
     ret qid)
    (fun _ => ret None).

Definition store_generated_question (E : Env) (self : t) (lesson_id query_id : option row_id)
    (question_text author_model : string) : M (option row_id) :=
  let sup := KnowledgeRepository._get_supabase E in
  match sup with
  | None => ret None
  | Some _ =>
      SupabaseClient.table_insert E "generated_questions"
        (RGeneratedQuestion {| GeneratedQuestion.lesson_id := lesson_id;
                               GeneratedQuestion.query_id := query_id;
                               GeneratedQuestion.author_model := author_model;
                               GeneratedQuestion.question_text := question_text |})
  end.

Section Practice.
Context `{Interp}.

Definition practice_line (r : gmap string value) : result string :=
  rbind (py_slice 200 (get_or r "content" (VStr ""))) (fun c =>
  Ok ("- " +:+ py_str (get_or r "topic" (VStr "")) +:+ ": " +:+ c)).

Fixpoint practice_lines (relevant : list (gmap string value)) : result (list string) :=
  match relevant with
  | [] => Ok []
  | r :: rest =>
      rbind (practice_line r) (fun x =>
      rbind (practice_lines rest) (fun xs => Ok (x :: xs)))
  end.

Definition practice_prompt (relevant : list (gmap string value)) (topic : string)
    : result string :=
  match relevant with
  | _ :: _ =>
      rbind (practice_lines relevant) (fun snippets =>
      Ok ("Using the following materials:" +:+ nl +:+ join nl snippets +:+ nl +:+ nl
          +:+ "Create one practice question about " +:+ topic
          +:+ ". Make it challenging but appropriate. Provide only the question."))
  | [] =>
      Ok ("Create one practice question about " +:+ topic
          +:+ ". Make it challenging but appropriate. Provide only the question.")
  end.

(** The loop over the cached lessons: the id of the first whose topic is
    [topic], case and surrounding blanks aside. *)
Fixpoint resolve_lesson (topic : string) (cached : list KnowledgeEntry.t) : option row_id :=
  match cached with
  | [] => None
  | l :: rest =>
      if bool_decide (lower (strip (KnowledgeEntry.topic l)) = lower (strip topic))
      then Some (KnowledgeEntry.id l)
      else resolve_lesson topic rest
  end.

Definition generate_practice_question (E : Env) (self : t) (topic : string) : M string :=
  let relevant :=
    match find_relevant E self topic (Some (TOP_K (config self))) with
    | Ok r => r
    | Raise _ => []
    end in
  prompt <- lift (practice_prompt relevant topic);;
  let messages := [ {| role := "user"; body := Parts [TextPart prompt] |} ] in
  q <- lift (ModelHandler.generate E messages (Some 256) (Some (8 # 10)%Q));;
  try_except
    (if truthy_opt (current_user_id self) then
       let lesson_id := resolve_lesson topic (KnowledgeRepository.all E) in
       store_generated_question E self lesson_id None q (MODEL_NAME (config self));;
       ret tt
     else ret tt)
    (fun _ => ret tt);;
  ret q.

End Practice.

End CoachService.

(** ** [CoachController]: the transport layer calls the service directly *)

Module CoachController.

Definition submit_query (E : Env) (service : CoachService.t) (user_id text_query : string)
    (images : option (list bytes)) (content_types : option (list string))
    : M (option row_id) :=
  CoachService.store_user_query E service user_id text_query images content_types.

Definition generate_question (E : Env) (service : CoachService.t)
    (lesson_id query_id : option row_id) (question_text model : string)
    : M (option row_id) :=
  CoachService.store_generated_question E service lesson_id query_id question_text model.

Definition evaluate `{Interp} (E : Env) (service : CoachService.t)
    (question student_answer correct_concept : string) : M string :=
  CoachService.evaluate_answer E service question student_answer correct_concept.

End CoachController.

(** ** The page ([app.py]), where it records a query

    Of the Streamlit page only the block that persists a query is modelled:
    it reads the signed-in user from the session, hands the uploaded file,
    if any, to [store_user_query], and keeps the id that comes back.
    [agent.service] is the [CoachService]. *)

Module App.

(** The upload widget's file: its bytes and the MIME type it reports, which
    may be missing. *)
Record UploadedFile : Type := {
  getvalue : bytes;
  type : option string
}.

(** The keys of [st.session_state] the block touches. *)
Record SessionState : Type := {
  user_id : option string;
  last_query_id : option row_id
}.

(** [try: uid = ...; if uid: ... last_query_id = store_user_query(...)
    except Exception: pass] *)
Definition persist_query (E : Env) (service : CoachService.t) (session_state : SessionState)
    (query text_query : option string) (uploaded_file : option UploadedFile)
    : M SessionState :=
  try_except
    (let uid := user_id session_state in
     if truthy_opt uid then
       let image_bytes_list :=
         match uploaded_file with
         | Some f => Some [getvalue f]
         | None => None
         end in
       let content_types :=
         match uploaded_file with
         | Some f => Some [or_default (type f) "image/png"]
         | None => None
         end in
       qid <- CoachService.store_user_query E service (default "" uid)
                (or_default (or_opt query text_query) "") image_bytes_list content_types;;
       ret {| user_id := uid; last_query_id := qid |}
     else ret session_state)
    (fun _ => ret session_state).

End App.

(** ** A small concrete world, for running the definitions *)

Module Scenario.

Definition cfg : Config :=
  {| COHERE_API_KEY := Some "key";
     COHERE_MODEL := Some "small";
     PGVECTOR_DIMENSION := Some 2;
     EMBED_MODEL_NAME := "embed-english-light-v3.0";
     MODEL_NAME := "coach";
     TOP_K := 3;
     MIN_PIXELS := 256;
     MAX_PIXELS := 1024;
     SUPABASE_STORAGE_BUCKET := "attachments" |}.

(** An SDK of the older shape: the newer call fails, the older one gives
    one vector of width 2 per text. *)
Definition sdk_client : cohere.client :=
  {| cohere.embeddings_create := fun _ _ => Raise (ProviderError "no attribute embeddings");
     cohere.embed := fun _ texts => Ok (map (fun _ => [1; 0]%Q) texts) |}.

Definition sdk : cohere.sdk := {| cohere.Client := fun _ => Ok sdk_client |}.

(** The texts of the scenario are ASCII, where [str.lower] folds A-Z and
    [str.strip] removes the blanks 9-13 and 28-32 at both ends. *)
Definition lower_ascii (c : Ascii.ascii) : Ascii.ascii :=
  let n := Ascii.nat_of_ascii c in
  if ((65 <=? n) && (n <=? 90))%nat then Ascii.ascii_of_nat (n + 32) else c.

Fixpoint ascii_lower (s : string) : string :=
  match s with
  | EmptyString => EmptyString
  | String c r => String (lower_ascii c) (ascii_lower r)
  end.

Definition is_whitespace (c : Ascii.ascii) : bool :=
  let n := Ascii.nat_of_ascii c in
  (((9 <=? n) && (n <=? 13)) || ((28 <=? n) && (n <=? 32)))%nat.

Fixpoint lstrip (s : string) : string :=
  match s with
  | EmptyString => EmptyString
  | String c r => if is_whitespace c then lstrip r else s
  end.

Definition ascii_strip (s : string) : string :=
  String.rev (lstrip (String.rev (lstrip s))).

(** The scenario reads no float from a string and prints none with
    [repr]; its texts are folded and stripped as ASCII. *)
#[local] Instance interp : Interp :=
  {| float_repr := format_4f;
     float_of_str := fun _ => None;
     lower := ascii_lower;
     strip := ascii_strip |}.

(** The store of the scenario raises [StoreError] with one plain word, whose
    [repr] is the class and the word in single quotes. *)
Definition store_repr (e : exn) : string :=
  match e with
  | StoreError m => "StoreError('" +:+ m +:+ "')"
  | _ => "Exception()"
  end.

Definition adapter : CohereClient.t := CohereClient.init cfg (Some sdk) None None.

(** No credential anywhere. *)
Definition cfg_no_key : Config :=
  {| COHERE_API_KEY := None;
     COHERE_MODEL := None;
     PGVECTOR_DIMENSION := Some 2;
     EMBED_MODEL_NAME := "embed-english-light-v3.0";
     MODEL_NAME := "coach";
     TOP_K := 3;
     MIN_PIXELS := 256;
     MAX_PIXELS := 1024;
     SUPABASE_STORAGE_BUCKET := "attachments" |}.

Definition adapter_no_key : CohereClient.t :=
  CohereClient.init cfg_no_key (Some sdk) None None.

Definition algebra : KnowledgeEntry.t :=
  {| KnowledgeEntry.id := 1%positive;
     KnowledgeEntry.topic := "algebra";
     KnowledgeEntry.content := "x + y";
     KnowledgeEntry.embedding := [77 # 100; 0]%Q |}.

Definition sums : KnowledgeEntry.t :=
  {| KnowledgeEntry.id := 2%positive;
     KnowledgeEntry.topic := "sums";
     KnowledgeEntry.content := "2 + 2 = 4";
     KnowledgeEntry.embedding := [91 # 100; 0]%Q |}.

Fixpoint dot (a b : cohere.vector) : Q :=
  match a, b with
  | x :: a', y :: b' => (x * y + dot a' b')%Q
  | _, _ => 0%Q
  end.

Definition world_of (p : CohereClient.t) (rows : list KnowledgeEntry.t)
    (plan : nat -> fault) (online : bool) : Env :=
  {| connected := online;
     provider := p;
     lessons := rows;
     similarity := fun a b => Qred (dot a b);
     generate := fun _ max_new_tokens _ =>
                   Ok (if bool_decide (max_new_tokens = Some 256) then "What is 3 + 4?"
                       else "Score: 4/5");
     faults := plan;
     entropy := fun n => "u" +:+ pretty n;
     repr := store_repr |}.

Definition world : list KnowledgeEntry.t -> (nat -> fault) -> bool -> Env :=
  world_of adapter.

Definition calm : nat -> fault := fun _ => NoFault.

Definition service : CoachService.t :=
  CoachService.set_user_context (CoachService.init cfg) (Some "alice").

Definition anonymous : CoachService.t := CoachService.init cfg.

Definition empty_tables : Tables :=
  {| attachments := ∅;
     user_queries := [];
     answers := [];
     generated_questions := [];
     embeddings := [];
     next_id := 1%positive |}.

Definition start : State :=
  {| db := empty_tables; tick := 0; calls := []; logged := [] |}.

End Scenario.

(** ** Predicates the properties are stated with *)









(** The store calls a run added to the record. *)
Definition new_calls (s s' : State) : list (call * fault) :=
  drop (length (calls s)) (calls s').

Definition is_upload (c : call) : bool :=
  match c with
  | CUploadAttachment _ _ _ _ _ => true
  | _ => false
  end.

Definition is_update (c : call) : bool :=
  match c with
  | CTableUpdate _ _ _ _ _ => true
  | _ => false
  end.

(** The run from [s] to [s'] sent an insert into the answers table. *)
Definition answer_insert_issued (s s' : State) : Prop :=
  exists rec f, In (CTableInsert "answers" (RAnswer rec), f) (new_calls s s').

(** [k] identifiers in a row, as the store issues them from [n] on. *)
Fixpoint fresh_ids (n : row_id) (k : nat) : list row_id :=
  match k with
  | O => []
  | S k' => n :: fresh_ids (Pos.succ n) k'
  end.

(** The back-fill calls for the attachments [ids], the first at position
    [idx]. *)
Fixpoint update_calls (qid : row_id) (user_id : string) (content_types : option (list string))
    (idx : nat) (ids : list row_id) : list call :=
  match ids with
  | [] => []
  | aid :: rest =>
      CTableUpdate "attachments" qid
        (CoachService.backfill_metadata qid user_id content_types idx) "id" aid
      :: update_calls qid user_id content_types (S idx) rest
  end.

(** The row an upload creates. *)
Definition uploaded (uid bucket path ct : string) : Attachment.t :=
  {| Attachment.owner_user_id := uid;
     Attachment.bucket := bucket;
     Attachment.storage_path := path;
     Attachment.content_type := ct;
     Attachment.query_id := None;
     Attachment.metadata := ∅ |}.

(** The dict inserted into [user_queries]. *)
Definition query_record (user_id text_query : string) (ids : list row_id) : record :=
  RUserQuery {| UserQuery.user_id := user_id;
                UserQuery.text_query := text_query;
                UserQuery.image_attachment_ids := ids |}.

(** The side-index call for the query [q]. *)
Definition query_embedding (q : row_id) (emb : cohere.vector) : call :=
  CAddEmbedding "user_queries" q emb {["source" := VStr "user_query"]}.

(** ** Predicates for the further properties *)

(** [s.strip().lower()] is one of the size names of the older models. *)
Definition names_size `{Interp} (s : string) : Prop :=
  lower (strip s) = "small" \/ lower (strip s) = "medium" \/ lower (strip s) = "large".

(** The topic of a cached lesson is [topic], case and surrounding blanks
    aside. *)
Definition same_topic `{Interp} (topic : string) (l : KnowledgeEntry.t) : Prop :=
  lower (strip (KnowledgeEntry.topic l)) = lower (strip topic).

(** The tables a run may not touch when it records an answer or a question. *)
Definition same_attachments_queries (t t' : Tables) : Prop :=
  attachments t' = attachments t /\ user_queries t' = user_queries t
  /\ embeddings t' = embeddings t.

Definition is_log (c : call) : bool :=
  match c with
  | CLog _ => true
  | _ => false
  end.

(** The row [store_generated_question] inserts. *)
Definition question_record (lesson_id query_id : option row_id)
    (author_model question_text : string) : GeneratedQuestion.t :=
  {| GeneratedQuestion.lesson_id := lesson_id;
     GeneratedQuestion.query_id := query_id;
     GeneratedQuestion.author_model := author_model;
     GeneratedQuestion.question_text := question_text |}.

(** The line [store_user_query] logs for an update that failed. *)
Definition update_failure_line (E : Env) (aid qid : row_id) (e : exn) : string :=
  "store_user_query: failed to update attachment id=" +:+ pretty aid
  +:+ " query_id=" +:+ pretty qid +:+ ": " +:+ repr E e.

(** The [messages] of [generate_practice_question]. *)
Definition practice_messages `{Interp} (E : Env) (self : CoachService.t) (topic : string)
    : result (list message) :=
  rbind (CoachService.practice_prompt
           match CoachService.find_relevant E self topic
                   (Some (TOP_K (CoachService.config self))) with
           | Ok r => r
           | Raise _ => []
           end topic) (fun prompt =>
  Ok [ {| role := "user"; body := Parts [TextPart prompt] |} ]).

(** The insert [generate_practice_question] sends for the question [q]. *)
Definition practice_insert `{Interp} (E : Env) (self : CoachService.t) (topic q : string)
    : call :=
  CTableInsert "generated_questions"
    (RGeneratedQuestion
       (question_record (CoachService.resolve_lesson topic (KnowledgeRepository.all E)) None
          (MODEL_NAME (CoachService.config self)) q)).

(** The insert [evaluate_answer] sends for the feedback [resp]. *)
Definition answer_insert (self : CoachService.t) (student_answer resp : string) : call :=
  CTableInsert "answers" (RAnswer (CoachService.answer_record self student_answer resp)).

(** The side-index row for the query [q]. *)
Definition query_embedding_record (q : row_id) (emb : cohere.vector) : EmbeddingRecord.t :=
  {| EmbeddingRecord.source_table := "user_queries";
     EmbeddingRecord.source_id := q;
     EmbeddingRecord.vector := emb;
     EmbeddingRecord.metadata := {["source" := VStr "user_query"]} |}.

(** The insert [store_user_query] sends for the attachments [ids]. *)
Definition query_insert (user_id text_query : string) (ids : list row_id) : call :=
  CTableInsert "user_queries" (query_record user_id text_query ids).





(** [c] uploads one of [images] for [uid]: the image at some position [j],
    under a name that ends in [j], with the content type given for [j]. *)
Definition upload_of (self : CoachService.t) (uid : string)
    (cts : option (list string)) (images : list bytes) (c : call) : Prop :=
  exists j hex b,
    images !! j = Some b
    /\ c = CUploadAttachment uid (SUPABASE_STORAGE_BUCKET (CoachService.config self))
             (CoachService.attachment_path hex j) b
             (default "image/png" (CoachService.content_type_at cts j)).

(** * Properties *)

(** ** The embedding provider adapter *)

Lemma init_without_credential `{Interp} cfg sdk api_key model :
  truthy_opt (or_opt api_key (COHERE_API_KEY cfg)) = false \/ sdk = None ->
  CohereClient.is_available (CohereClient.init cfg sdk api_key model) = false.
Proof.
  unfold CohereClient.is_available, CohereClient.init; simpl.
  intros [Hkey | ->].
  - destruct (or_opt api_key (COHERE_API_KEY cfg)) as [k|]; [|done].
    simpl in Hkey. rewrite Hkey. by destruct sdk.
  - by destruct (or_opt api_key (COHERE_API_KEY cfg)).
Qed.

Lemma init_client_raises `{Interp} cfg md api_key model :
  (forall k, raises (cohere.Client md k)) ->
  CohereClient.is_available (CohereClient.init cfg (Some md) api_key model) = false.
Proof.
  intros Hraise. unfold CohereClient.is_available, CohereClient.init; simpl.
  destruct (or_opt api_key (COHERE_API_KEY cfg)) as [k|]; [|done].
  destruct (truthy_str k); [|done].
  destruct (Hraise k) as [e ->]. done.
Qed.

(** C9. Without a client (no credential, no SDK, or a constructor that
    raised) [embed] raises [ProviderUnavailable] for every list of texts; in
    particular it does not return an empty list. *)
Theorem embed_provider_unavailable cfg self texts :
  CohereClient.is_available self = false ->
  CohereClient.embed cfg self texts = Raise CohereClient.ProviderUnavailable
  /\ CohereClient.embed cfg self texts <> Ok [].
Proof.
  intros Hna. unfold CohereClient.embed. rewrite Hna. simpl. split; [done | discriminate].
Qed.

Lemma embed_provider_unavailable_witness :
  CohereClient.is_available Scenario.adapter_no_key = false
  /\ CohereClient.embed Scenario.cfg_no_key Scenario.adapter_no_key ["What is 2+2?"]
     = Raise CohereClient.ProviderUnavailable.
Proof.
  split; [reflexivity |].
  apply (embed_provider_unavailable Scenario.cfg_no_key Scenario.adapter_no_key
           ["What is 2+2?"]).
  reflexivity.
Defined.

Lemma target_dimension_configured cfg d :
  PGVECTOR_DIMENSION cfg = Some d -> d <> 0 -> CohereClient.target_dimension cfg = d.
Proof.
  intros Hd Hnz. unfold CohereClient.target_dimension. rewrite Hd.
  destruct (Z.eqb_spec d 0); [done | done].
Qed.

(** C1. Let D be the target dimension the configuration gives (the
    configured width, 384 when it is unset or zero) and W the width of the
    first vector the provider returned.  If W differs from D, [embed] raises
    [DimensionMismatch]; if W equals D, [embed] returns the provider's
    vectors as they are. *)
Theorem embed_dimension_check cfg self c texts v0 rest :
  CohereClient._client self = Some c ->
  CohereClient.provider_vectors c (CohereClient.model self) texts = Ok (v0 :: rest) ->
  let D := CohereClient.target_dimension cfg in
  let W := length v0 in
  (forall d, PGVECTOR_DIMENSION cfg = Some d -> d <> 0 -> D = d)
  /\ (Z.of_nat W <> D ->
      CohereClient.embed cfg self texts = Raise (CohereClient.DimensionMismatch W D))
  /\ (Z.of_nat W = D -> CohereClient.embed cfg self texts = Ok (v0 :: rest)).
Proof.
  intros Hc Hv D W. split; [apply target_dimension_configured |].
  unfold CohereClient.embed, CohereClient.is_available.
  rewrite Hc. simpl. rewrite Hv. simpl. fold D W. split; intros HW.
  - by rewrite bool_decide_eq_false_2.
  - by rewrite bool_decide_eq_true_2.
Qed.

Lemma embed_dimension_check_witness :
  CohereClient._client Scenario.adapter = Some Scenario.sdk_client
  /\ CohereClient.provider_vectors Scenario.sdk_client (CohereClient.model Scenario.adapter)
       ["a"; "b"] = Ok [[1; 0]%Q; [1; 0]%Q]
  /\ CohereClient.embed Scenario.cfg Scenario.adapter ["a"; "b"] = Ok [[1; 0]%Q; [1; 0]%Q].
Proof.
  split; [reflexivity |]. split; [reflexivity |].
  apply (proj2 (proj2 (embed_dimension_check Scenario.cfg Scenario.adapter
                         Scenario.sdk_client ["a"; "b"] [1; 0]%Q [[1; 0]%Q]
                         eq_refl eq_refl))).
  reflexivity.
Defined.

(** The same provider against a store of width 3: nothing is cut or padded. *)
Example embed_width_2_store_3 :
  CohereClient.embed
    {| COHERE_API_KEY := Some "key"; COHERE_MODEL := None; PGVECTOR_DIMENSION := Some 3;
       EMBED_MODEL_NAME := ""; MODEL_NAME := ""; TOP_K := 3; MIN_PIXELS := 0;
       MAX_PIXELS := 0; SUPABASE_STORAGE_BUCKET := "" |}
    Scenario.adapter ["a"]
  = Raise (RuntimeError "Cohere embedding dimension 2 does not match PGVECTOR_DIMENSION=3. Update COHERE_MODEL or PGVECTOR_DIMENSION.").
Proof. reflexivity. Qed.

(** ** Retrieval *)

#[local] Instance by_similarity_total : Total KnowledgeRepository.by_similarity.
Proof.
  intros a b. unfold KnowledgeRepository.by_similarity.
  rewrite !Qle_bool_iff. destruct (Qlt_le_dec (snd a) (snd b)) as [Hlt | Hle].
  - right. by apply Qlt_le_weak.
  - by left.
Qed.

#[local] Instance by_similarity_trans : Transitive KnowledgeRepository.by_similarity.
Proof.
  intros a b c. unfold KnowledgeRepository.by_similarity.
  rewrite !Qle_bool_iff. intros Hab Hbc. by apply Qle_trans with (snd b).
Qed.





(** C4. If embedding the query fails, whatever the failure and whatever
    [top_k], [find_relevant] returns the empty list and raises nothing. *)
Theorem find_relevant_embedding_failure E self query top_k e :
  KnowledgeRepository.embed_texts E (CoachService.config self) [query] = Raise e ->
  CoachService.find_relevant E self query top_k = Ok [].
Proof.
  intros Hfail. unfold CoachService.find_relevant, KnowledgeRepository.search.
  by rewrite Hfail.
Qed.

Lemma find_relevant_embedding_failure_witness :
  KnowledgeRepository.embed_texts
    (Scenario.world_of Scenario.adapter_no_key [Scenario.algebra] Scenario.calm true)
    (CoachService.config Scenario.service) ["What is 2+2?"]
  = Raise CohereClient.ProviderUnavailable
  /\ CoachService.find_relevant
       (Scenario.world_of Scenario.adapter_no_key [Scenario.algebra] Scenario.calm true)
       Scenario.service "What is 2+2?" (Some 5) = Ok [].
Proof.
  split; [reflexivity |].
  apply (find_relevant_embedding_failure
           (Scenario.world_of Scenario.adapter_no_key [Scenario.algebra] Scenario.calm true)
           Scenario.service "What is 2+2?" (Some 5) CohereClient.ProviderUnavailable).
  reflexivity.
Defined.



(** A negative [top_k] against the two entries of the scenario is rejected,
    and so is zero once the default is zero. *)
Example find_relevant_below_1 :
  let W := Scenario.world [Scenario.algebra; Scenario.sums] Scenario.calm true in
  CoachService.find_relevant W Scenario.service "What is 2+2?" (Some (-1))
  = Raise ValueError
  /\ CoachService.find_relevant W
       (CoachService.init
          {| COHERE_API_KEY := Some "key"; COHERE_MODEL := None;
             PGVECTOR_DIMENSION := Some 2; EMBED_MODEL_NAME := ""; MODEL_NAME := "";
             TOP_K := 0; MIN_PIXELS := 0; MAX_PIXELS := 0;
             SUPABASE_STORAGE_BUCKET := "" |})
       "What is 2+2?" (Some 0)
     = Raise ValueError.
Proof. split; vm_compute; reflexivity. Qed.


(** Similarities 0.91 and 0.77 with [top_k = 1]: only the 0.91 entry. *)
Example find_relevant_top_1 :
  CoachService.find_relevant
    (Scenario.world [Scenario.algebra; Scenario.sums] Scenario.calm true)
    Scenario.service "What is 2+2?" (Some 1)
  = Ok [KnowledgeRepository.to_entry (Scenario.sums, 91 # 100)%Q].
Proof. vm_compute. reflexivity. Qed.

(** ** Strings *)

Lemma append_nil (b : string) : EmptyString +:+ b = b.
Proof. reflexivity. Qed.









Example format_4f_samples :
  format_4f (Finite (91 # 100)) = "0.9100" /\ format_4f (Finite (1 # 32)) = "0.0312"
  /\ format_4f (Finite (3 # 32)) = "0.0938" /\ format_4f (Finite (- (5 # 2))) = "-2.5000"
  /\ format_4f (Finite (- (1 # 100000))) = "-0.0000".
Proof. repeat split; vm_compute; reflexivity. Qed.

(** [float] of an int: exact up to 2^53, then the nearest double (a tie
    goes to the even one), and an error from 2^1024 on. *)
Example double_of_int_samples :
  double_of_int 3 = Some 3
  /\ double_of_int (2 ^ 53 + 1) = Some (2 ^ 53)
  /\ double_of_int (2 ^ 53 + 3) = Some (2 ^ 53 + 4)
  /\ double_of_int (- (2 ^ 60 + 1)) = Some (- 2 ^ 60)
  /\ double_of_int (2 ^ 1024 - 2 ^ 970 - 1) = Some (2 ^ 1024 - 2 ^ 971)
  /\ double_of_int (2 ^ 1024 - 2 ^ 970) = None
  /\ double_of_int (10 ^ 400) = None.
Proof. repeat split; vm_compute; reflexivity. Qed.

(** ** Prompt assembly *)

Section PromptProperties.
Context `{Interp}.





End PromptProperties.



(** What the model is sent for "What is 2+2?" with a picture and two entries
    in the store. *)
Example explanation_messages_two_entries :
  CoachService.explanation_messages (H := Scenario.interp)
    (Scenario.world [Scenario.algebra; Scenario.sums] Scenario.calm true)
    Scenario.service "What is 2+2?" [] (Some 5%positive)
  = Ok [ {| role := "system"; body := Plain CoachService.system_prompt |};
         {| role := "user";
            body := Parts [ImagePart 5%positive 256 1024;
                           TextPart ("Retrieved documents:" +:+ nl
                             +:+ "ID: 2" +:+ nl +:+ "Topic: sums" +:+ nl
                             +:+ "Similarity: 0.9100" +:+ nl +:+ "2 + 2 = 4" +:+ nl
                             +:+ "---" +:+ nl
                             +:+ "ID: 1" +:+ nl +:+ "Topic: algebra" +:+ nl
                             +:+ "Similarity: 0.7700" +:+ nl +:+ "x + y" +:+ nl
                             +:+ "---" +:+ nl +:+ nl
                             +:+ "Question: What is 2+2?" +:+ nl +:+ nl
                             +:+ "Provide a clear, educational explanation that directly uses the retrieved documents.")] |} ].
Proof. vm_compute. reflexivity. Qed.

(** How similarities that are not plain floats read: an int beyond 2^53 as
    the double next to it, a float that is no number by its name; an int
    beyond the largest double stops the assembly. *)
Example explanation_similarity_edge_cases :
  CoachService.sim_str (H := Scenario.interp) (VInt (2 ^ 53 + 1)) = Ok "9007199254740992.0000"
  /\ CoachService.sim_str (H := Scenario.interp) (VFloat NaN) = Ok "nan"
  /\ CoachService.sim_str (H := Scenario.interp) (VFloat (Inf true)) = Ok "-inf"
  /\ CoachService.sim_str (H := Scenario.interp) (VFloat NegZero) = Ok "-0.0000"
  /\ CoachService.sim_str (H := Scenario.interp) VNone = Ok "N/A"
  /\ CoachService.explanation_messages (H := Scenario.interp)
       (Scenario.world [] Scenario.calm true) Scenario.service "What is 2+2?"
       [{["similarity" := VInt (10 ^ 400)]}] None
     = Raise OverflowError.
Proof. repeat split; vm_compute; reflexivity. Qed.


(** C7. The messages sent to the model depend on the world only through the
    entries the prompt is built from: two runs, in whatever worlds, with the
    same query, the same entries and the same picture assemble the same
    system instruction and the same user turn, picture and hints included. *)
Theorem prompt_assembly_deterministic `{Interp} E1 E2 self query r1 r2 img :
  CoachService.retrieved E1 self query r1 = CoachService.retrieved E2 self query r2 ->
  CoachService.explanation_messages E1 self query r1 img
  = CoachService.explanation_messages E2 self query r2 img.
Proof.
  intros Hsame. unfold CoachService.explanation_messages. by rewrite Hsame.
Qed.

Lemma prompt_assembly_deterministic_witness :
  let W1 := Scenario.world [Scenario.algebra; Scenario.sums] Scenario.calm true in
  let W2 := Scenario.world [Scenario.algebra; Scenario.sums] (fun _ => Fails) false in
  CoachService.retrieved W1 Scenario.service "What is 2+2?" []
  = CoachService.retrieved W2 Scenario.service "What is 2+2?" []
  /\ CoachService.explanation_messages (H := Scenario.interp) W1 Scenario.service "What is 2+2?" [] (Some 5%positive)
     = CoachService.explanation_messages (H := Scenario.interp) W2 Scenario.service "What is 2+2?" [] (Some 5%positive).
Proof.
  intros W1 W2. split; [reflexivity |].
  apply (prompt_assembly_deterministic (H := Scenario.interp) W1 W2 Scenario.service "What is 2+2?" [] []
           (Some 5%positive)).
  reflexivity.
Defined.

(** ** The interaction recorder *)

Ltac run :=
  unfold bind, ret, raise, try_except, lift, with_db, step in *; simpl in *.

Lemma new_calls_app s s' new : calls s' = calls s ++ new -> new_calls s s' = new.
Proof. intros Hc. unfold new_calls. rewrite Hc. apply drop_app_length. Qed.

Lemma new_calls_same s : new_calls s s = [].
Proof. apply new_calls_app. by rewrite app_nil_r. Qed.

Section RecorderProperties.
Context `{Interp}.

Lemma evaluation_line_to_entry p :
  exists line, CoachService.evaluation_line (KnowledgeRepository.to_entry p) = Ok line.
Proof. eexists. reflexivity. Qed.

Lemma evaluation_lines_to_entry l :
  exists lines,
    CoachService.evaluation_lines (map KnowledgeRepository.to_entry l) = Ok lines.
Proof.
  induction l as [| p l [lines IH]]; simpl.
  - by exists [].
  - destruct (evaluation_line_to_entry p) as [line Hline].
    rewrite Hline, IH. simpl. by eexists.
Qed.

Lemma find_relevant_entries E self query top_k r :
  CoachService.find_relevant E self query top_k = Ok r ->
  exists l, r = map KnowledgeRepository.to_entry l.
Proof.
  unfold CoachService.find_relevant, KnowledgeRepository.search.
  destruct (KnowledgeRepository.embed_texts E (CoachService.config self) [query])
    as [[| v vs] | e].
  - intros [= <-]. by exists [].
  - destruct (_ <? 1); [discriminate |]. intros [= <-]. by eexists.
  - intros [= <-]. by exists [].
Qed.

(** The prompt of [evaluate_answer] is always assembled: the entries it is
    built from come out of the search, whose content is text. *)
Lemma evaluation_messages_ok E self question student_answer correct_concept :
  exists messages,
    CoachService.evaluation_messages E self question student_answer correct_concept
    = Ok messages.
Proof.
  unfold CoachService.evaluation_messages, CoachService.evaluation_relevant.
  destruct (CoachService.find_relevant E self _ _) as [r | e] eqn:Hr.
  - apply find_relevant_entries in Hr as [l ->].
    destruct l as [| p l]; [by eexists |].
    destruct (evaluation_lines_to_entry (p :: l)) as [lines Hlines].
    unfold CoachService.evaluation_prompt. cbn [map] in *. rewrite Hlines.
    by eexists.
  - by eexists.
Qed.

End RecorderProperties.

(** What [evaluate_answer] does once the model has answered [resp], by the
    connection, the principal and the fate of the insert. *)
Lemma evaluate_answer_eq `{Interp} E self question student_answer correct_concept s
    messages resp :
  CoachService.evaluation_messages E self question student_answer correct_concept
  = Ok messages ->
  ModelHandler.generate E messages (Some 512) None = Ok resp ->
  CoachService.evaluate_answer E self question student_answer correct_concept s
  = (Ok resp,
     if connected E && truthy_opt (CoachService.current_user_id self) then
       let c := CTableInsert "answers"
                  (RAnswer (CoachService.answer_record self student_answer resp)) in
       match faults E (tick s) with
       | NoFault =>
           recorded c NoFault
             (add_record (RAnswer (CoachService.answer_record self student_answer resp))
                (db s)) s
       | f => recorded c f (db s) s
       end
     else s).
Proof.
  intros Hm Hg. unfold CoachService.evaluate_answer, bind, lift.
  rewrite Hm, Hg. unfold KnowledgeRepository._get_supabase.
  destruct (connected E); simpl;
    [destruct (truthy_opt (CoachService.current_user_id self)); simpl |].
  - unfold SupabaseClient.table_insert. run.
    by destruct (faults E (tick s)).
  - reflexivity.
  - reflexivity.
Qed.

Lemma evaluate_answer_run `{Interp} E self question student_answer correct_concept s
    messages resp :
  CoachService.evaluation_messages E self question student_answer correct_concept
  = Ok messages ->
  ModelHandler.generate E messages (Some 512) None = Ok resp ->
  let out := CoachService.evaluate_answer E self question student_answer correct_concept s in
  let rec := CoachService.answer_record self student_answer resp in
  fst out = Ok resp
  /\ (connected E && truthy_opt (CoachService.current_user_id self) = false -> snd out = s)
  /\ (connected E && truthy_opt (CoachService.current_user_id self) = true ->
      calls (snd out)
      = calls s ++ [(CTableInsert "answers" (RAnswer rec), faults E (tick s))]
      /\ answers (db (snd out))
         = match faults E (tick s) with
           | NoFault => answers (db s) ++ [(next_id (db s), rec)]
           | _ => answers (db s)
           end).
Proof.
  intros Hm Hg out rec. subst out rec.
  rewrite (evaluate_answer_eq E self question student_answer correct_concept s
             messages resp Hm Hg).
  split; [reflexivity |]. split.
  - by intros ->.
  - intros ->. simpl. by destruct (faults E (tick s)).
Qed.

(** C8. Once the model has produced the feedback, [evaluate_answer] returns
    it in every case and raises nothing.  It sends the AnswerRecord to the
    store exactly when a store connection and a principal both exist (and the
    record is then stored unless the store fails, which is swallowed); when
    either is absent the store is left as it was. *)
Theorem evaluate_answer_recording `{Interp} E self question student_answer correct_concept s :
  exists messages,
    CoachService.evaluation_messages E self question student_answer correct_concept
    = Ok messages
    /\ forall resp,
        ModelHandler.generate E messages (Some 512) None = Ok resp ->
        let out :=
          CoachService.evaluate_answer E self question student_answer correct_concept s in
        fst out = Ok resp
        /\ (answer_insert_issued s (snd out)
            <-> connected E = true
                /\ truthy_opt (CoachService.current_user_id self) = true)
        /\ (connected E = false \/ truthy_opt (CoachService.current_user_id self) = false ->
            snd out = s)
        /\ (connected E = true -> truthy_opt (CoachService.current_user_id self) = true ->
            faults E (tick s) = NoFault ->
            answers (db (snd out))
            = answers (db s)
              ++ [(next_id (db s), CoachService.answer_record self student_answer resp)]).
Proof.
  destruct (evaluation_messages_ok E self question student_answer correct_concept)
    as [messages Hm].
  exists messages. split; [exact Hm |]. intros resp Hg out.
  destruct (evaluate_answer_run E self question student_answer correct_concept s
              messages resp Hm Hg) as [Hres [Hoff Hon]].
  fold out in Hres, Hoff, Hon.
  split; [exact Hres |]. split; [| split].
  - split.
    + intros [rec [f Hin]].
      destruct (connected E && truthy_opt (CoachService.current_user_id self)) eqn:Hboth.
      * by apply andb_true_iff in Hboth.
      * rewrite (Hoff eq_refl), new_calls_same in Hin. destruct Hin.
    + intros [Hc Hp]. destruct Hon as [Hcalls _]; [by rewrite Hc, Hp |].
      eexists _, _. rewrite (new_calls_app _ _ _ Hcalls). by left.
  - intros [Hc | Hp]; apply Hoff; rewrite ?Hc, ?Hp; [done | by rewrite andb_false_r].
  - intros Hc Hp Hf. destruct Hon as [_ Hrows]; [by rewrite Hc, Hp |].
    by rewrite Hf in Hrows.
Qed.

(** C10. Every AnswerRecord that [evaluate_answer] adds to the store has no
    question id, no grade and no feedback, belongs to the current principal,
    and holds as its model answer the very text returned to the caller. *)
Theorem persisted_answer_record `{Interp} E self question student_answer correct_concept s :
  let out := CoachService.evaluate_answer E self question student_answer correct_concept s in
  exists new,
    answers (db (snd out)) = answers (db s) ++ new
    /\ forall i rec, In (i, rec) new ->
         AnswerRecord.question_id rec = None
         /\ AnswerRecord.grade rec = None
         /\ AnswerRecord.feedback rec = None
         /\ AnswerRecord.user_id rec = CoachService.current_user_id self
         /\ truthy_opt (CoachService.current_user_id self) = true
         /\ fst out = Ok (AnswerRecord.model_answer rec).
Proof.
  intros out.
  destruct (evaluation_messages_ok E self question student_answer correct_concept)
    as [messages Hm].
  destruct (ModelHandler.generate E messages (Some 512) None) as [resp | e] eqn:Hg.
  - destruct (evaluate_answer_run E self question student_answer correct_concept s
                messages resp Hm Hg) as [Hres [Hoff Hon]].
    fold out in Hres, Hoff, Hon.
    destruct (connected E && truthy_opt (CoachService.current_user_id self)) eqn:Hboth.
    + destruct (Hon eq_refl) as [_ Hrows]. apply andb_true_iff in Hboth as [_ Hp].
      destruct (faults E (tick s)).
      * eexists. split; [exact Hrows |]. intros i rec [[= <- <-] | []].
        by repeat split.
      * exists []. rewrite app_nil_r. split; [exact Hrows | intros ? ? []].
      * exists []. rewrite app_nil_r. split; [exact Hrows | intros ? ? []].
    + exists []. rewrite (Hoff eq_refl), app_nil_r. split; [done | intros ? ? []].
  - exists []. rewrite app_nil_r. split; [| intros ? ? []].
    subst out. unfold CoachService.evaluate_answer.
    unfold bind at 1, lift at 1. rewrite Hm.
    unfold bind at 1, lift at 1. by rewrite Hg.
Qed.

(** A signed-in run against a connected store: the record that is written. *)
Example evaluate_answer_signed_in :
  let out :=
    CoachService.evaluate_answer (H := Scenario.interp)
      (Scenario.world [Scenario.sums] Scenario.calm true) Scenario.service
      "What is 2+2?" "4" "addition" Scenario.start in
  fst out = Ok "Score: 4/5"
  /\ answers (db (snd out))
     = [(1%positive,
         {| AnswerRecord.question_id := None;
            AnswerRecord.user_id := Some "alice";
            AnswerRecord.user_answer := "4";
            AnswerRecord.model_answer := "Score: 4/5";
            AnswerRecord.grade := None;
            AnswerRecord.feedback := None |})].
Proof. vm_compute. by split. Qed.

(** Signed out, or with a store that fails: the feedback all the same. *)
Example evaluate_answer_signed_out :
  CoachService.evaluate_answer (H := Scenario.interp)
    (Scenario.world [Scenario.sums] Scenario.calm true) Scenario.anonymous
    "What is 2+2?" "4" "addition" Scenario.start
  = (Ok "Score: 4/5", Scenario.start).
Proof. vm_compute. reflexivity. Qed.

(** [store_user_query] has its whole body under [try/except]: whatever the
    world does, it returns, an id or nothing. *)
Lemma store_user_query_never_raises E self user_id text_query images content_types s :
  exists r,
    fst (CoachService.store_user_query E self user_id text_query images content_types s)
    = Ok r.
Proof.
  unfold CoachService.store_user_query, try_except.
  match goal with |- context [match ?m s with _ => _ end] => destruct (m s) as [[r | e] s'] end.
  - by exists r.
  - by exists None.
Qed.

(** Without a store connection [store_generated_question] returns nothing
    and touches nothing. *)
Lemma store_generated_question_no_connection E self lesson_id query_id text author s :
  connected E = false ->
  CoachService.store_generated_question E self lesson_id query_id text author s
  = (Ok None, s).
Proof.
  intros Hoff. unfold CoachService.store_generated_question,
    KnowledgeRepository._get_supabase. by rewrite Hoff.
Qed.

(** With a connection, an insert that raises is not caught. *)
Lemma store_generated_question_propagates E self lesson_id query_id text author s :
  connected E = true ->
  faults E (tick s) = Fails ->
  fst (CoachService.store_generated_question E self lesson_id query_id text author s)
  = Raise (StoreError "table_insert").
Proof.
  intros Hon Hf. unfold CoachService.store_generated_question,
    KnowledgeRepository._get_supabase, SupabaseClient.table_insert.
  rewrite Hon. run. by rewrite Hf.
Qed.

Lemma practice_lines_to_entry `{Interp} l :
  exists lines,
    CoachService.practice_lines (map KnowledgeRepository.to_entry l) = Ok lines.
Proof.
  induction l as [| p l [lines IH]]; simpl.
  - by exists [].
  - unfold CoachService.practice_line at 1.
    change (get_or (KnowledgeRepository.to_entry p) "content" (VStr ""))
      with (VStr (KnowledgeEntry.content (fst p))).
    simpl. rewrite IH. simpl. by eexists.
Qed.

(** [generate_practice_question] calls [store_generated_question] under
    [try/except]: once the model has produced the question, it is returned,
    whatever the store does. *)
Lemma generate_practice_question_absorbs `{Interp} E self topic s :
  exists messages,
    forall q,
      ModelHandler.generate E messages (Some 256) (Some (8 # 10)%Q) = Ok q ->
      fst (CoachService.generate_practice_question E self topic s) = Ok q.
Proof.
  unfold CoachService.generate_practice_question.
  set (relevant := match CoachService.find_relevant E self topic _ with
                   | Ok r => r
                   | Raise _ => []
                   end).
  assert (exists prompt, CoachService.practice_prompt relevant topic = Ok prompt)
    as [prompt Hprompt].
  { subst relevant.
    destruct (CoachService.find_relevant E self topic _) as [r | e] eqn:Hr; [| by eexists].
    apply find_relevant_entries in Hr as [l ->].
    destruct l as [| p l]; [by eexists |].
    destruct (practice_lines_to_entry (p :: l)) as [lines Hlines].
    unfold CoachService.practice_prompt. cbn [map] in *. rewrite Hlines. by eexists. }
  eexists. intros q Hq.
  unfold bind at 1, lift at 1. rewrite Hprompt.
  unfold bind at 1, lift at 1. rewrite Hq.
  unfold bind at 1, try_except.
  match goal with |- context [match ?m s with _ => _ end] => by destruct (m s) as [[[] | e] s'] end.
Qed.

(** C3, where the code departs from it.  The store is connected and its
    insert raises: [store_generated_question], reached through the
    controller, hands the exception to its caller, whereas in the same world
    [store_user_query] returns nothing and raises nothing, and
    [generate_practice_question], which guards its own call of
    [store_generated_question], returns the question. *)
Theorem generate_question_raises_on_store_failure :
  let W := Scenario.world [] (fun _ => Fails) true in
  fst (CoachController.generate_question W Scenario.service None None
         "What is 2+2?" "coach" Scenario.start)
  = Raise (StoreError "table_insert")
  /\ fst (CoachController.submit_query W Scenario.service "alice" "What is 2+2?"
            None None Scenario.start)
     = Ok None
  /\ fst (CoachService.generate_practice_question (H := Scenario.interp) W Scenario.service
            "sums" Scenario.start)
     = Ok "What is 3 + 4?".
Proof. repeat split; vm_compute; reflexivity. Qed.

(** *** What each store call does, by its fate *)

Lemma uuid4_hex_eq E s :
  uuid4_hex E s
  = (Ok (entropy E (tick s)),
     {| db := db s; tick := S (tick s); calls := calls s; logged := logged s |}).
Proof. reflexivity. Qed.

Lemma upload_attachment_eq E user_id bucket path data ct s :
  KnowledgeRepository.upload_attachment E user_id bucket path data ct s
  = let c := CUploadAttachment user_id bucket path data ct in
    match faults E (tick s) with
    | NoFault =>
        (Ok (Some (next_id (db s))),
         recorded c NoFault
           (add_attachment {| Attachment.owner_user_id := user_id;
                              Attachment.bucket := bucket;
                              Attachment.storage_path := path;
                              Attachment.content_type := ct;
                              Attachment.query_id := None;
                              Attachment.metadata := ∅ |} (db s)) s)
    | Empty => (Ok None, recorded c Empty (db s) s)
    | Fails => (Raise (StoreError "upload_attachment"), recorded c Fails (db s) s)
    end.
Proof.
  unfold KnowledgeRepository.upload_attachment. run. by destruct (faults E (tick s)).
Qed.

Lemma table_insert_eq E table rec s :
  SupabaseClient.table_insert E table rec s
  = let c := CTableInsert table rec in
    match faults E (tick s) with
    | NoFault => (Ok (Some (next_id (db s))), recorded c NoFault (add_record rec (db s)) s)
    | Empty => (Ok None, recorded c Empty (db s) s)
    | Fails => (Raise (StoreError "table_insert"), recorded c Fails (db s) s)
    end.
Proof.
  unfold SupabaseClient.table_insert. run. by destruct (faults E (tick s)).
Qed.

Lemma table_update_eq E qid md aid s :
  SupabaseClient.table_update E "attachments" qid md "id" aid s
  = let c := CTableUpdate "attachments" qid md "id" aid in
    match faults E (tick s) with
    | NoFault => (Ok tt, recorded c NoFault (update_attachment aid qid md (db s)) s)
    | Empty => (Ok tt, recorded c Empty (db s) s)
    | Fails => (Raise (StoreError "table_update"), recorded c Fails (db s) s)
    end.
Proof.
  unfold SupabaseClient.table_update. run. by destruct (faults E (tick s)).
Qed.

Lemma add_embedding_for_source_eq E table sid v md s :
  KnowledgeRepository.add_embedding_for_source E table sid v md s
  = let c := CAddEmbedding table sid v md in
    match faults E (tick s) with
    | NoFault =>
        (Ok tt, recorded c NoFault
                  (add_embedding {| EmbeddingRecord.source_table := table;
                                    EmbeddingRecord.source_id := sid;
                                    EmbeddingRecord.vector := v;
                                    EmbeddingRecord.metadata := md |} (db s)) s)
    | Empty => (Ok tt, recorded c Empty (db s) s)
    | Fails => (Raise (StoreError "add_embedding_for_source"), recorded c Fails (db s) s)
    end.
Proof.
  unfold KnowledgeRepository.add_embedding_for_source. run. by destruct (faults E (tick s)).
Qed.

Lemma fresh_ids_lower n k aid : In aid (fresh_ids n k) -> (n <= aid)%positive.
Proof.
  revert n. induction k as [| k IH]; intros n; simpl; [done |].
  intros [<- | Hin]; [lia |]. apply IH in Hin. lia.
Qed.

Lemma fresh_ids_NoDup n k : NoDup (fresh_ids n k).
Proof.
  revert n. induction k as [| k IH]; intros n; simpl; constructor.
  - intros Hin%list_elem_of_In%fresh_ids_lower. lia.
  - apply IH.
Qed.

Lemma fresh_ids_length n k : length (fresh_ids n k) = k.
Proof. revert n. induction k as [| k IH]; intros n; simpl; [done | by rewrite IH]. Qed.

Lemma fresh_ids_lookup n k i aid :
  fresh_ids n k !! i = Some aid -> aid = (n + Pos.of_nat (S i) - 1)%positive.
Proof.
  revert n i. induction k as [| k IH]; intros n i; simpl; [done |].
  destruct i as [| i]; simpl.
  - intros [= <-]. lia.
  - intros Hl%IH. lia.
Qed.

(** *** The upload loop *)

Lemma upload_all_cons E self uid cts i b rest acc s :
  CoachService.upload_all E self uid cts i (b :: rest) acc s
  = let s1 := {| db := db s; tick := S (tick s); calls := calls s; logged := logged s |} in
    let bucket := SUPABASE_STORAGE_BUCKET (CoachService.config self) in
    let path := CoachService.attachment_path (entropy E (tick s)) i in
    let ct := default "image/png" (CoachService.content_type_at cts i) in
    let c := CUploadAttachment uid bucket path b ct in
    match faults E (S (tick s)) with
    | NoFault =>
        CoachService.upload_all E self uid cts (S i) rest (acc ++ [next_id (db s)])
          (recorded c NoFault (add_attachment (uploaded uid bucket path ct) (db s)) s1)
    | Empty => CoachService.upload_all E self uid cts (S i) rest acc (recorded c Empty (db s) s1)
    | Fails => (Raise (StoreError "upload_attachment"), recorded c Fails (db s) s1)
    end.
Proof.
  cbn [CoachService.upload_all]. unfold bind.
  rewrite uuid4_hex_eq, upload_attachment_eq. simpl.
  by destruct (faults E (S (tick s))).
Qed.

(** The upload loop records uploads only, leaves the rows below the store's
    next identifier alone, and, when it returns and every upload took effect,
    has created one row per attachment, in order: the row of the attachment
    at position [i + j] is the [j]-th fresh identifier. *)
Lemma upload_all_run E self uid cts images : forall i acc s,
  let out := CoachService.upload_all E self uid cts i images acc s in
  exists new,
    calls (snd out) = calls s ++ new
    /\ Forall (fun cf => is_upload (fst cf) = true) new
    /\ (forall aid, (aid < next_id (db s))%positive ->
                    attachments (db (snd out)) !! aid = attachments (db s) !! aid)
    /\ (forall ids, fst out = Ok ids ->
          (forall c f, In (c, f) new -> is_upload c = true -> f = NoFault) ->
          ids = acc ++ fresh_ids (next_id (db s)) (length images)
          /\ (forall j aid, fresh_ids (next_id (db s)) (length images) !! j = Some aid ->
                exists hex,
                  attachments (db (snd out)) !! aid
                  = Some (uploaded uid (SUPABASE_STORAGE_BUCKET (CoachService.config self))
                            (CoachService.attachment_path hex (i + j))
                            (default "image/png"
                               (CoachService.content_type_at cts (i + j)))))
          /\ length new = length images).
Proof.
  induction images as [| b rest IH]; intros i acc s out; subst out.
  - exists []. simpl. rewrite !app_nil_r.
    split; [done |]. split; [constructor |]. split; [done |].
    by intros ids [= <-] _.
  - rewrite upload_all_cons. cbv zeta.
    set (s1 := {| db := db s; tick := S (tick s); calls := calls s; logged := logged s |}).
    set (c := CUploadAttachment _ _ _ _ _).
    destruct (faults E (S (tick s))) eqn:Hf.
    + set (s2 := recorded c NoFault _ s1).
      destruct (IH (S i) (acc ++ [next_id (db s)]) s2) as [new [Hcalls [Hnoupd [Hkeep Hok]]]].
      exists ((c, NoFault) :: new).
      split; [| split; [| split]].
      * rewrite Hcalls. simpl. by rewrite <- !app_assoc.
      * by repeat constructor.
      * intros aid Haid. rewrite Hkeep by (simpl; lia).
        simpl. apply lookup_insert_ne. lia.
      * intros ids Hids Hall.
        destruct (Hok ids Hids) as [Hidseq [Hrows Hlen]].
        { intros c' f' Hin. apply Hall. by right. }
        split; [| split].
        -- rewrite Hidseq. simpl. by rewrite <- app_assoc.
        -- intros j aid Hj. destruct j as [| j]; simpl in Hj.
           ++ injection Hj as <-. exists (entropy E (tick s)).
              rewrite Hkeep by (simpl; lia). simpl.
              rewrite Nat.add_0_r. apply lookup_insert_eq.
           ++ destruct (Hrows j aid Hj) as [hex Hrow]. exists hex.
              by replace (i + S j)%nat with (S i + j)%nat by lia.
        -- simpl. by rewrite Hlen.
    + set (s2 := recorded c Empty _ s1).
      destruct (IH (S i) acc s2) as [new [Hcalls [Hnoupd [Hkeep Hok]]]].
      exists ((c, Empty) :: new).
      split; [| split; [| split]].
      * rewrite Hcalls. simpl. by rewrite <- !app_assoc.
      * by repeat constructor.
      * intros aid Haid. by apply Hkeep.
      * intros ids _ Hall. discriminate (Hall c Empty); [by left | done].
    + exists [(c, Fails)].
      split; [| split; [| split]].
      * reflexivity.
      * by repeat constructor.
      * done.
      * intros ids Hids. discriminate Hids.
Qed.

(** *** The back-fill loop *)

Lemma log_caught E msg s :
  exists s',
    try_except (KnowledgeRepository._log E msg) (fun _ => ret tt) s = (Ok tt, s')
    /\ calls s' = calls s ++ [(CLog msg, faults E (tick s))]
    /\ db s' = db s.
Proof.
  unfold KnowledgeRepository._log. run.
  destruct (faults E (tick s)); eexists; (split; [reflexivity |]); by split.
Qed.

Lemma backfill_cons E qid uid cts idx aid rest s :
  CoachService.backfill E qid uid cts idx (aid :: rest) s
  = let md := CoachService.backfill_metadata qid uid cts idx in
    let c := CTableUpdate "attachments" qid md "id" aid in
    match faults E (tick s) with
    | NoFault =>
        CoachService.backfill E qid uid cts (S idx) rest
          (recorded c NoFault (update_attachment aid qid md (db s)) s)
    | Empty =>
        CoachService.backfill E qid uid cts (S idx) rest (recorded c Empty (db s) s)
    | Fails =>
        CoachService.backfill E qid uid cts (S idx) rest
          (snd (try_except
                  (KnowledgeRepository._log E
                     ("store_user_query: failed to update attachment id=" +:+ pretty aid
                      +:+ " query_id=" +:+ pretty qid +:+ ": "
                      +:+ repr E (StoreError "table_update")))
                  (fun _ => ret tt) (recorded c Fails (db s) s)))
    end.
Proof.
  cbn [CoachService.backfill]. unfold bind at 1. unfold try_except at 1.
  rewrite table_update_eq. cbv zeta.
  destruct (faults E (tick s)); try reflexivity.
  match goal with
  | |- context [try_except (KnowledgeRepository._log E ?m) _ ?s1] =>
      destruct (log_caught E m s1) as [s' [Hlog _]]
  end.
  by rewrite Hlog.
Qed.

Lemma backfill_run E qid uid cts ids : forall idx s,
  let out := CoachService.backfill E qid uid cts idx ids s in
  fst out = Ok tt
  /\ exists new,
      calls (snd out) = calls s ++ new
      /\ Forall (fun cf => is_upload (fst cf) = false) new
      /\ ((forall c f, In (c, f) new -> is_update c = true -> f = NoFault) ->
          new = map (fun c => (c, NoFault)) (update_calls qid uid cts idx ids)
          /\ (forall aid, ~ In aid ids ->
                attachments (db (snd out)) !! aid = attachments (db s) !! aid)
          /\ (NoDup ids -> forall j aid a0,
                ids !! j = Some aid -> attachments (db s) !! aid = Some a0 ->
                attachments (db (snd out)) !! aid
                = Some (link qid (CoachService.backfill_metadata qid uid cts (idx + j)) a0))).
Proof.
  induction ids as [| aid rest IH]; intros idx s out; subst out.
  - split; [reflexivity |]. exists []. simpl. rewrite app_nil_r.
    split; [done |]. split; [constructor |]. intros _. by repeat split.
  - rewrite backfill_cons. cbv zeta.
    set (md := CoachService.backfill_metadata qid uid cts idx).
    set (c := CTableUpdate "attachments" qid md "id" aid).
    destruct (faults E (tick s)) eqn:Hf.
    + set (s1 := recorded c NoFault _ s).
      destruct (IH (S idx) s1) as [Hres [new [Hcalls [Hnoup Hok]]]].
      split; [exact Hres |].
      exists ((c, NoFault) :: new). split; [| split].
      * rewrite Hcalls. simpl. by rewrite <- app_assoc.
      * by constructor.
      * intros Hall. destruct Hok as [Htrace [Hother Hlinked]].
        { intros c' f' Hin. apply Hall. by right. }
        split; [| split].
        -- simpl. by rewrite Htrace.
        -- intros aid' Hnotin. rewrite Hother by (intros Hin; apply Hnotin; by right).
           simpl. apply lookup_alter_ne. intros ->. apply Hnotin. by left.
        -- intros Hnd j aid' a0 Hj Ha0. apply NoDup_cons in Hnd as [Hfresh Hnd].
           destruct j as [| j]; simpl in Hj.
           ++ injection Hj as <-. rewrite Nat.add_0_r.
              rewrite Hother by (by rewrite <- list_elem_of_In).
              simpl. by rewrite lookup_alter_eq, Ha0.
           ++ replace (idx + S j)%nat with (S idx + j)%nat by lia.
              apply Hlinked; [exact Hnd | exact Hj |].
              simpl. rewrite lookup_alter_ne; [exact Ha0 |].
              intros ->. apply Hfresh. by eapply list_elem_of_lookup_2.
    + set (s1 := recorded c Empty _ s).
      destruct (IH (S idx) s1) as [Hres [new [Hcalls [Hnoup _]]]].
      split; [exact Hres |].
      exists ((c, Empty) :: new). split; [| split].
      * rewrite Hcalls. simpl. by rewrite <- app_assoc.
      * by constructor.
      * intros Hall. discriminate (Hall c Empty); [by left | done].
    + match goal with
      | |- context [try_except (KnowledgeRepository._log E ?m) _ ?s1] =>
          destruct (log_caught E m s1) as [s' [Hlog [Hlogcalls _]]]; rewrite Hlog
      end.
      simpl snd.
      destruct (IH (S idx) s') as [Hres [new [Hcalls [Hnoup _]]]].
      split; [exact Hres |].
      eexists ((c, Fails) :: (CLog _, _) :: new). split; [| split].
      * rewrite Hcalls, Hlogcalls. simpl. by rewrite <- !app_assoc.
      * by repeat constructor.
      * intros Hall. discriminate (Hall c Fails); [by left | done].
Qed.

(** *** The whole of [store_user_query] *)

Lemma store_user_query_eq E self user_id text_query images content_types s :
  CoachService.store_user_query E self user_id text_query (Some images) content_types s
  = match CoachService.upload_all E self user_id content_types 0 images [] s with
    | (Raise _, s1) => (Ok None, s1)
    | (Ok ids, s1) =>
        match KnowledgeRepository.embed_texts E (CoachService.config self) [text_query] with
        | Raise _ | Ok [] => (Ok None, s1)
        | Ok (emb :: _) =>
            if connected E then
              let ins := CTableInsert "user_queries" (query_record user_id text_query ids) in
              match faults E (tick s1) with
              | NoFault =>
                  let q := next_id (db s1) in
                  let s2 := recorded ins NoFault
                              (add_record (query_record user_id text_query ids) (db s1)) s1 in
                  let s3 := snd (CoachService.backfill E q user_id content_types 0 ids s2) in
                  match faults E (tick s3) with
                  | NoFault =>
                      (Ok (Some q),
                       recorded (query_embedding q emb) NoFault
                         (add_embedding
                            {| EmbeddingRecord.source_table := "user_queries";
                               EmbeddingRecord.source_id := q;
                               EmbeddingRecord.vector := emb;
                               EmbeddingRecord.metadata := {["source" := VStr "user_query"]} |}
                            (db s3)) s3)
                  | Empty => (Ok (Some q), recorded (query_embedding q emb) Empty (db s3) s3)
                  | Fails => (Ok None, recorded (query_embedding q emb) Fails (db s3) s3)
                  end
              | f => (Ok None, recorded ins f (db s1) s1)
              end
            else (Ok None, s1)
        end
    end.
Proof.
  unfold CoachService.store_user_query, try_except.
  unfold bind at 1.
  replace (match images with
           | [] => ret []
           | _ :: _ => CoachService.upload_all E self user_id content_types 0 images []
           end s)
    with (CoachService.upload_all E self user_id content_types 0 images [] s)
    by (by destruct images).
  destruct (CoachService.upload_all E self user_id content_types 0 images [] s)
    as [[ids | e] s1]; [| reflexivity].
  unfold bind at 1, lift at 1.
  destruct (KnowledgeRepository.embed_texts E (CoachService.config self) [text_query])
    as [[| emb vs] | e]; simpl; [reflexivity | | reflexivity].
  unfold KnowledgeRepository._get_supabase.
  destruct (connected E); [| reflexivity].
  unfold bind at 1. rewrite table_insert_eq. cbv zeta.
  destruct (faults E (tick s1)) eqn:Hf1; [| reflexivity | reflexivity].
  unfold bind at 1, query_record.
  match goal with
  | |- context [match ids with [] => ret tt | _ :: _ => ?b end ?s2] =>
      replace (match ids with [] => ret tt | _ :: _ => b end s2) with (b s2)
        by (by destruct ids)
  end.
  match goal with
  | |- context [CoachService.backfill E ?q user_id content_types 0 ids ?s2] =>
      pose proof (backfill_run E q user_id content_types ids 0 s2) as [Hres _];
      destruct (CoachService.backfill E q user_id content_types 0 ids s2) as [r3 s3]
  end.
  simpl in Hres. subst r3. simpl snd.
  unfold bind at 1. rewrite add_embedding_for_source_eq. cbv zeta.
  by destruct (faults E (tick s3)).
Qed.

Lemma backfill_metadata_index qid user_id content_types idx :
  CoachService.backfill_metadata qid user_id content_types idx !! "index"
  = Some (VInt (Z.of_nat idx)).
Proof. reflexivity. Qed.

(** C2, as the code has it.  If [store_user_query], called with N
    attachments, returns a query id, and every upload and every back-fill
    update of the run took effect, then the run created N attachment rows;
    the row of the attachment supplied at position i is the row its upload
    created (query id null, stored under a name that ends in i) with the
    query id and the metadata back-filled, so it carries that query id and i
    as [metadata.index]; and what the run sent to the store is its N
    uploads, then the UserQuery insert, then the N back-fill updates in
    order, then the embedding of the query. *)
Theorem store_user_query_links_attachments E self user_id text_query images content_types
    s qid :
  let out :=
    CoachService.store_user_query E self user_id text_query (Some images) content_types s in
  fst out = Ok (Some qid) ->
  (forall c f, In (c, f) (new_calls s (snd out)) ->
               is_upload c || is_update c = true -> f = NoFault) ->
  let ids := fresh_ids (next_id (db s)) (length images) in
  length ids = length images
  /\ (forall i aid, ids !! i = Some aid ->
      exists a hex,
        attachments (db (snd out)) !! aid = Some a
        /\ a = link qid (CoachService.backfill_metadata qid user_id content_types i)
                 (uploaded user_id (SUPABASE_STORAGE_BUCKET (CoachService.config self))
                    (CoachService.attachment_path hex i)
                    (default "image/png" (CoachService.content_type_at content_types i)))
        /\ Attachment.query_id (uploaded user_id
                                  (SUPABASE_STORAGE_BUCKET (CoachService.config self))
                                  (CoachService.attachment_path hex i)
                                  (default "image/png"
                                     (CoachService.content_type_at content_types i)))
           = None
        /\ Attachment.query_id a = Some qid
        /\ Attachment.metadata a !! "index" = Some (VInt (Z.of_nat i)))
  /\ exists uploads emb f,
       new_calls s (snd out)
       = uploads
         ++ (CTableInsert "user_queries" (query_record user_id text_query ids), NoFault)
         :: map (fun c => (c, NoFault)) (update_calls qid user_id content_types 0 ids)
         ++ [(query_embedding qid emb, f)]
       /\ Forall (fun cf => is_upload (fst cf) = true) uploads
       /\ length uploads = length images.
Proof.
  intros out. subst out. rewrite store_user_query_eq.
  pose proof (upload_all_run E self user_id content_types images 0 [] s) as Hup.
  destruct (CoachService.upload_all E self user_id content_types 0 images [] s)
    as [[ids0 | e] s1]; [| discriminate].
  simpl in Hup. destruct Hup as [new1 [Hcalls1 [Hnoupd1 [_ Hok1]]]].
  destruct (KnowledgeRepository.embed_texts E (CoachService.config self) [text_query])
    as [[| emb vs] | e]; [discriminate | | discriminate].
  destruct (connected E); [| discriminate]. cbv zeta.
  destruct (faults E (tick s1)) eqn:Hf1; [| discriminate | discriminate].
  set (ins := CTableInsert "user_queries" (query_record user_id text_query ids0)).
  set (s2 := recorded ins NoFault _ s1).
  pose proof (backfill_run E (next_id (db s1)) user_id content_types ids0 0 s2) as Hbf.
  destruct (CoachService.backfill E (next_id (db s1)) user_id content_types 0 ids0 s2)
    as [r3 s3].
  simpl in Hbf. destruct Hbf as [_ [new3 [Hcalls3 [Hnoup3 Hok3]]]]. simpl snd.
  set (emb_call := query_embedding (next_id (db s1)) emb).
  assert (exists f4 t4,
            (forall a, attachments t4 !! a = attachments (db s3) !! a)
            /\ match faults E (tick s3) with
               | NoFault =>
                   (Ok (Some (next_id (db s1))),
                    recorded emb_call NoFault
                      (add_embedding
                         {| EmbeddingRecord.source_table := "user_queries";
                            EmbeddingRecord.source_id := next_id (db s1);
                            EmbeddingRecord.vector := emb;
                            EmbeddingRecord.metadata := {["source" := VStr "user_query"]} |}
                         (db s3)) s3)
               | Empty => (Ok (Some (next_id (db s1))), recorded emb_call Empty (db s3) s3)
               | Fails => (Ok None, recorded emb_call Fails (db s3) s3)
               end
               = ((if f4 is Fails then Ok None else Ok (Some (next_id (db s1)))),
                  recorded emb_call f4 t4 s3)) as [f4 [t4 [Ht4 ->]]].
  { destruct (faults E (tick s3));
      [eexists NoFault, (add_embedding _ (db s3)) | exists Empty, (db s3)
      | exists Fails, (db s3)]; by split. }
  intros Hres Hall. set (ids := fresh_ids (next_id (db s)) (length images)) in *.
  cbn [fst snd] in *.
  assert (qid = next_id (db s1)) as -> by (destruct f4; congruence).
  assert (new_calls s (recorded emb_call f4 t4 s3)
          = new1 ++ (ins, NoFault) :: new3 ++ [(emb_call, f4)]) as Hnew.
  { apply new_calls_app. simpl. rewrite Hcalls3. simpl. rewrite Hcalls1.
    by rewrite <- !app_assoc. }
  rewrite Hnew in Hall. rewrite Hnew.
  destruct (Hok1 ids0 eq_refl) as [Hids0 [Hrows Hcount]].
  { intros c f Hin Hc. apply (Hall c f); [| by rewrite Hc].
    apply in_or_app. by left. }
  simpl in Hids0. fold ids in Hids0, Hrows. subst ids0.
  destruct Hok3 as [Htrace [_ Hlinked]].
  { intros c f Hin Hc. apply (Hall c f); [| by rewrite Hc, orb_true_r].
    apply in_or_app. right. right. apply in_or_app. by left. }
  split; [apply fresh_ids_length |]. split.
  - intros i aid Hi.
    destruct (Hrows i aid Hi) as [hex Ha0]. simpl in Ha0.
    eexists _, hex. split.
    + simpl. rewrite Ht4.
      exact (Hlinked (fresh_ids_NoDup _ _) i aid _ Hi Ha0).
    + split; [reflexivity |]. split; [reflexivity |]. split; [reflexivity |].
      apply backfill_metadata_index.
  - exists new1, emb, f4. rewrite <- Htrace. by repeat split.
Qed.

Lemma store_user_query_links_attachments_witness :
  let W := Scenario.world [] Scenario.calm true in
  let out :=
    CoachService.store_user_query W Scenario.service "alice" "What is 2+2?"
      (Some [[Byte.x89; Byte.x50]; [Byte.xff; Byte.xd8]]) (Some ["image/png"; "image/jpeg"])
      Scenario.start in
  fst out = Ok (Some 3%positive)
  /\ Forall (fun cf => snd cf = NoFault) (new_calls Scenario.start (snd out))
  /\ forall i aid, [1%positive; 2%positive] !! i = Some aid ->
       exists a,
         attachments (db (snd out)) !! aid = Some a
         /\ Attachment.owner_user_id a = "alice"
         /\ Attachment.query_id a = Some 3%positive
         /\ Attachment.metadata a !! "index" = Some (VInt (Z.of_nat i)).
Proof.
  intros W out.
  assert (fst out = Ok (Some 3%positive)) as Hres by (vm_compute; reflexivity).
  assert (Forall (fun cf => snd cf = NoFault) (new_calls Scenario.start (snd out))) as Hcalm
    by (vm_compute; repeat constructor).
  split; [exact Hres |]. split; [exact Hcalm |].
  assert (forall c f, In (c, f) (new_calls Scenario.start (snd out)) ->
                      is_upload c || is_update c = true -> f = NoFault) as Hall.
  { intros c f Hin _. rewrite Forall_forall in Hcalm.
    apply (Hcalm (c, f)). by apply list_elem_of_In. }
  destruct (store_user_query_links_attachments W Scenario.service "alice" "What is 2+2?"
              [[Byte.x89; Byte.x50]; [Byte.xff; Byte.xd8]]
              (Some ["image/png"; "image/jpeg"]) Scenario.start 3%positive Hres Hall)
    as [_ [Hrows _]].
  intros i aid Hi. destruct (Hrows i aid Hi) as [a [hex [Ha [-> [_ [Hq Hidx]]]]]].
  eexists. split; [exact Ha |]. by repeat split.
Defined.

(** C2, as the spec has it, fails when a back-fill update fails: the update
    of the only attachment raises, which is caught and logged; the call still
    returns the query id 2, and the attachment row 1 keeps a null query id. *)
Lemma store_user_query_unlinked_attachment :
  let W := Scenario.world [] (fun n => if (n =? 3)%nat then Fails else NoFault) true in
  let out :=
    CoachService.store_user_query W Scenario.service "alice" "What is 2+2?"
      (Some [[Byte.x89; Byte.x50]]) (Some ["image/png"]) Scenario.start in
  fst out = Ok (Some 2%positive)
  /\ Attachment.query_id <$> attachments (db (snd out)) !! 1%positive = Some None
  /\ logged (snd out)
     = ["store_user_query: failed to update attachment id=1 query_id=2: StoreError('table_update')"].
Proof. vm_compute. by repeat split. Qed.

(** When the first of two uploads comes back without an id, the second
    attachment is back-filled at position 0 of the ids that were collected. *)
Example store_user_query_skipped_upload :
  let W := Scenario.world [] (fun n => if (n =? 1)%nat then Empty else NoFault) true in
  let out :=
    CoachService.store_user_query W Scenario.service "alice" "What is 2+2?"
      (Some [[Byte.x89; Byte.x50]; [Byte.xff; Byte.xd8]]) (Some ["image/png"; "image/jpeg"])
      Scenario.start in
  fst out = Ok (Some 2%positive)
  /\ (a ← attachments (db (snd out)) !! 1%positive;
      Some (Attachment.content_type a, Attachment.query_id a,
            Attachment.metadata a !! "index", Attachment.metadata a !! "content_type"))
     = Some ("image/jpeg", Some 2%positive, Some (VInt 0), Some (VStr "image/png")).
Proof. vm_compute. by split. Qed.

(** ** More on the embedding provider adapter *)

(** X1. The client exists exactly when a non-empty key is at hand (the argument,
    or else the configured one), the SDK was imported, and its constructor
    returned for that key; the client is then what the constructor gave. *)
Theorem init_available_iff `{Interp} cfg sdk api_key model :
  let self := CohereClient.init cfg sdk api_key model in
  (CohereClient.api_key self
   = if truthy_opt api_key then api_key else COHERE_API_KEY cfg)
  /\ (forall c,
        CohereClient._client self = Some c
        <-> exists k md,
              CohereClient.api_key self = Some k /\ truthy_str k = true
              /\ sdk = Some md /\ cohere.Client md k = Ok c)
  /\ (CohereClient.is_available self = true
      <-> exists c, CohereClient._client self = Some c).
Proof.
  intros self. subst self. unfold CohereClient.is_available, CohereClient.init. simpl.
  split; [reflexivity |]. split.
  - intros c. destruct (or_opt api_key (COHERE_API_KEY cfg)) as [k |].
    + destruct sdk as [md |].
      * destruct (truthy_str k) eqn:Hk.
        -- destruct (cohere.Client md k) as [c' | e] eqn:Hc.
           ++ split.
              ** intros [= <-]. by exists k, md.
              ** intros [k' [md' [[= <-] [_ [[= <-] Hc']]]]]. congruence.
           ++ split; [done |]. intros [k' [md' [[= <-] [_ [[= <-] Hc']]]]]. congruence.
        -- split; [done |]. intros [k' [md' [[= <-] [Hk' _]]]]. congruence.
      * split; [done |]. by intros [k' [md' [_ [_ [? _]]]]].
    + split; [done |]. by intros [k' [md' [? _]]].
  - destruct (match or_opt api_key (COHERE_API_KEY cfg) with
              | Some k => _ | None => _ end) as [c |].
    + split; [by exists c | done].
    + split; [done | by intros [c ?]].
Qed.

Lemma legacy_alias_spec `{Interp} s : CohereClient.legacy_alias s = true <-> names_size s.
Proof.
  unfold CohereClient.legacy_alias, names_size. cbv zeta.
  rewrite !orb_true_iff, !bool_decide_eq_true. tauto.
Qed.

(** X2. The model identifier is never empty.  A non-empty argument is taken as
    it is; otherwise the configured one is taken unless it is empty or its
    [strip().lower()] is one of small, medium, large, for which the default
    stands in. *)
Theorem init_model_resolution `{Interp} cfg sdk api_key model :
  let m := CohereClient.model (CohereClient.init cfg sdk api_key model) in
  truthy_str m = true
  /\ (truthy_opt model = true -> model = Some m)
  /\ (truthy_opt model = false ->
      match COHERE_MODEL cfg with
      | Some s =>
          (names_size s \/ s = EmptyString -> m = "embed-english-light-v3.0")
          /\ (~ names_size s -> s <> EmptyString -> m = s)
      | None => m = "embed-english-light-v3.0"
      end).
Proof.
  intros m. subst m. unfold CohereClient.init. simpl.
  assert (forall s,
            let m := or_default (if CohereClient.legacy_alias s then Some EmptyString
                                 else Some s) "embed-english-light-v3.0" in
            truthy_str m = true
            /\ (names_size s \/ s = EmptyString -> m = "embed-english-light-v3.0")
            /\ (~ names_size s -> s <> EmptyString -> m = s)) as Hcfg.
  { intros s. pose proof (legacy_alias_spec s) as Hspec.
    destruct (CohereClient.legacy_alias s); simpl.
    - split; [done |]. split; [done |]. intros Hno. destruct Hno. by apply Hspec.
    - destruct s as [| a s]; simpl.
      + by repeat split.
      + split; [done |]. split; [| done].
        intros [Hsize | Hempty]; [| discriminate Hempty].
        apply Hspec in Hsize. discriminate Hsize. }
  destruct model as [[| a ms] |]; simpl.
  - destruct (COHERE_MODEL cfg) as [s |]; simpl; [| by repeat split].
    destruct (Hcfg s) as (Hm & Hdflt & Hkeep). split; [exact Hm |]. split; [done |].
    intros _. by split.
  - repeat split; done.
  - destruct (COHERE_MODEL cfg) as [s |]; simpl; [| by repeat split].
    destruct (Hcfg s) as (Hm & Hdflt & Hkeep). split; [exact Hm |]. split; [done |].
    intros _. by split.
Qed.

(** The configured "small" of the scenario gives the default model. *)
Example init_model_small :
  CohereClient.model Scenario.adapter = "embed-english-light-v3.0".
Proof. reflexivity. Qed.

(** X3. Which SDK call decides.  If the newer call returns, the older one is
    never consulted: clients that agree on the newer call give the same
    result.  If both raise, it is the exception of the older call that
    [embed] raises. *)
Theorem embed_sdk_fallback cfg self c texts :
  CohereClient._client self = Some c ->
  (forall vs self' c',
     cohere.embeddings_create c (CohereClient.model self) texts = Ok vs ->
     CohereClient._client self' = Some c' ->
     CohereClient.model self' = CohereClient.model self ->
     cohere.embeddings_create c' (CohereClient.model self) texts = Ok vs ->
     CohereClient.embed cfg self' texts = CohereClient.embed cfg self texts)
  /\ (forall e1 e2,
        cohere.embeddings_create c (CohereClient.model self) texts = Raise e1 ->
        cohere.embed c (CohereClient.model self) texts = Raise e2 ->
        CohereClient.embed cfg self texts = Raise e2)
  /\ (forall e1 vs self' c',
        cohere.embeddings_create c (CohereClient.model self) texts = Raise e1 ->
        cohere.embed c (CohereClient.model self) texts = Ok vs ->
        CohereClient._client self' = Some c' ->
        CohereClient.model self' = CohereClient.model self ->
        cohere.embeddings_create c' (CohereClient.model self) texts = Ok vs ->
        CohereClient.embed cfg self texts = CohereClient.embed cfg self' texts).
Proof.
  intros Hc. unfold CohereClient.embed, CohereClient.is_available,
    CohereClient.provider_vectors. rewrite Hc. simpl. split; [| split].
  - intros vs self' c' Hnew Hc' Hm Hnew'. rewrite Hc', Hm. simpl. by rewrite Hnew, Hnew'.
  - intros e1 e2 Hnew Hold. by rewrite Hnew, Hold.
  - intros e1 vs self' c' Hnew Hold Hc' Hm Hnew'. rewrite Hc', Hm. simpl.
    by rewrite Hnew, Hold, Hnew'.
Qed.

Lemma embed_sdk_fallback_witness :
  CohereClient._client Scenario.adapter = Some Scenario.sdk_client
  /\ cohere.embeddings_create Scenario.sdk_client (CohereClient.model Scenario.adapter) ["a"]
     = Raise (ProviderError "no attribute embeddings")
  /\ forall e2,
       cohere.embed Scenario.sdk_client (CohereClient.model Scenario.adapter) ["a"] = Raise e2 ->
       CohereClient.embed Scenario.cfg Scenario.adapter ["a"] = Raise e2.
Proof.
  split; [reflexivity |]. split; [reflexivity |].
  intros e2.
  exact (proj1 (proj2 (embed_sdk_fallback Scenario.cfg Scenario.adapter Scenario.sdk_client
                         ["a"] eq_refl))
           (ProviderError "no attribute embeddings") e2 eq_refl).
Defined.

Lemma target_dimension_nonzero cfg : CohereClient.target_dimension cfg <> 0.
Proof.
  unfold CohereClient.target_dimension.
  destruct (PGVECTOR_DIMENSION cfg) as [d |]; [| done].
  by destruct (Z.eqb_spec d 0).
Qed.

(** X4. When [embed] returns.  It returns [vs] exactly when there is a client,
    the provider returned [vs], and [vs] is empty or its first vector has the
    target width, which is never zero.  An empty answer of the provider
    passes unchecked. *)
Theorem embed_returns_iff cfg self texts vs :
  CohereClient.embed cfg self texts = Ok vs
  <-> exists c,
        CohereClient._client self = Some c
        /\ CohereClient.provider_vectors c (CohereClient.model self) texts = Ok vs
        /\ CohereClient.target_dimension cfg <> 0
        /\ match vs with
           | [] => True
           | v0 :: _ => Z.of_nat (length v0) = CohereClient.target_dimension cfg
           end.
Proof.
  unfold CohereClient.embed, CohereClient.is_available.
  destruct (CohereClient._client self) as [c |]; simpl.
  - destruct (CohereClient.provider_vectors c (CohereClient.model self) texts)
      as [[| v0 rest] | e] eqn:Hp; simpl.
    + split.
      * intros [= <-]. exists c. split; [done |]. split; [done |].
        split; [apply target_dimension_nonzero | done].
      * intros [c' [[= <-] [Hp' _]]]. congruence.
    + case_bool_decide as Hw.
      * split.
        -- intros [= <-]. exists c. split; [done |]. split; [done |].
           split; [apply target_dimension_nonzero | done].
        -- intros [c' [[= <-] [Hp' _]]]. congruence.
      * split; [done |]. intros [c' [[= <-] [Hp' [_ Hw']]]].
        rewrite Hp in Hp'. injection Hp' as <-. done.
    + split; [done |]. intros [c' [[= <-] [Hp' _]]]. congruence.
  - split; [done |]. intros [c [? _]]. done.
Qed.

(** X5. When [embed] raises, and what.  There are three ways and no other: no
    client ([ProviderUnavailable]); the provider's own exception, from the
    older call after the newer one raised too; a first vector of the wrong
    width ([DimensionMismatch], naming both widths). *)
Theorem embed_raises_iff cfg self texts e :
  CohereClient.embed cfg self texts = Raise e
  <-> (CohereClient._client self = None /\ e = CohereClient.ProviderUnavailable)
      \/ (exists c, CohereClient._client self = Some c
                    /\ CohereClient.provider_vectors c (CohereClient.model self) texts
                       = Raise e)
      \/ (exists c v0 rest,
            CohereClient._client self = Some c
            /\ CohereClient.provider_vectors c (CohereClient.model self) texts
               = Ok (v0 :: rest)
            /\ Z.of_nat (length v0) <> CohereClient.target_dimension cfg
            /\ e = CohereClient.DimensionMismatch (length v0)
                     (CohereClient.target_dimension cfg)).
Proof.
  unfold CohereClient.embed, CohereClient.is_available.
  destruct (CohereClient._client self) as [c |]; simpl.
  - destruct (CohereClient.provider_vectors c (CohereClient.model self) texts)
      as [[| v0 rest] | e'] eqn:Hp; simpl.
    + split; [done |].
      intros [[? _] | [[c' [[= <-] Hp']] | [c' [v0 [rest [[= <-] [Hp' _]]]]]]];
        congruence.
    + case_bool_decide as Hw.
      * split; [done |].
        intros [[? _] | [[c' [[= <-] Hp']] | [c' [v0' [rest' [[= <-] [Hp' [Hw' _]]]]]]]];
          [done | congruence |].
        rewrite Hp in Hp'. injection Hp' as <- <-. done.
      * split.
        -- intros [= <-]. right. right. by exists c, v0, rest.
        -- intros [[? _] | [[c' [[= <-] Hp']] | [c' [v0' [rest' [[= <-] [Hp' [_ ->]]]]]]]];
             [done | congruence |].
           rewrite Hp in Hp'. by injection Hp' as <- <-.
    + split.
      * intros [= <-]. right. left. by exists c.
      * intros [[? _] | [[c' [[= <-] Hp']] | [c' [v0 [rest [[= <-] [Hp' _]]]]]]];
          congruence.
  - split.
    + intros [= <-]. by left.
    + intros [[_ ->] | [[c [? _]] | [c [v0 [rest [? _]]]]]]; done.
Qed.

(** ** The principal *)

(** X6. [set_user_context] keeps the configuration, forgets the previous
    principal, turns an empty id into none, and is idempotent: afterwards the
    principal is none or a non-empty id, the one given. *)
Theorem set_user_context_normalises self previous user_id :
  let self' := CoachService.set_user_context self user_id in
  CoachService.config self' = CoachService.config self
  /\ (CoachService.current_user_id self' = None
      \/ exists u, user_id = Some u /\ u <> EmptyString
                   /\ CoachService.current_user_id self' = Some u)
  /\ (CoachService.current_user_id self' = None <-> truthy_opt user_id = false)
  /\ CoachService.set_user_context self' user_id = self'
  /\ CoachService.set_user_context (CoachService.set_user_context self previous) user_id
     = self'.
Proof.
  intros self'. subst self'. unfold CoachService.set_user_context. simpl.
  destruct user_id as [[| a u] |]; simpl.
  - repeat split; auto.
  - split; [done |]. split; [right; by eexists |]. repeat split; done.
  - repeat split; auto.
Qed.

(** X7. The loop over the cached lessons with its [break]: the id found is that
    of the first lesson with the same topic, case and surrounding blanks
    aside; none is found exactly when no lesson has it. *)
Theorem resolve_lesson_first_match `{Interp} topic cached :
  match CoachService.resolve_lesson topic cached with
  | Some i =>
      exists before l after,
        cached = before ++ l :: after
        /\ KnowledgeEntry.id l = i
        /\ same_topic topic l
        /\ Forall (fun l' => ~ same_topic topic l') before
  | None => Forall (fun l => ~ same_topic topic l) cached
  end.
Proof.
  induction cached as [| l rest IH]; simpl; [constructor |].
  case_bool_decide as Hl.
  - exists [], l, rest. by repeat split.
  - destruct (CoachService.resolve_lesson topic rest) as [i |].
    + destruct IH as [before [l' [after [-> [Hid [Hsame Hnone]]]]]].
      exists (l :: before), l', after. repeat split; [done | done | by constructor].
    + by constructor.
Qed.

Example resolve_lesson_ignores_case :
  CoachService.resolve_lesson (H := Scenario.interp) "  SUMS "
    [Scenario.algebra; Scenario.sums] = Some 2%positive
  /\ CoachService.resolve_lesson (H := Scenario.interp) "sum"
       [Scenario.algebra; Scenario.sums] = None.
Proof. split; vm_compute; reflexivity. Qed.

(** ** Questions and answers: what is recorded, and what is left alone *)

Lemma practice_messages_ok `{Interp} E self topic :
  exists messages, practice_messages E self topic = Ok messages.
Proof.
  unfold practice_messages.
  destruct (CoachService.find_relevant E self topic _) as [r | e] eqn:Hr; [| by eexists].
  apply find_relevant_entries in Hr as [l ->].
  destruct l as [| p l]; [by eexists |].
  destruct (practice_lines_to_entry (p :: l)) as [lines Hlines].
  unfold CoachService.practice_prompt. cbn [map] in *. rewrite Hlines. by eexists.
Qed.

Lemma generate_practice_question_eq `{Interp} E self topic s messages q :
  practice_messages E self topic = Ok messages ->
  ModelHandler.generate E messages (Some 256) (Some (8 # 10)%Q) = Ok q ->
  CoachService.generate_practice_question E self topic s
  = (Ok q,
     if truthy_opt (CoachService.current_user_id self) && connected E then
       match faults E (tick s) with
       | NoFault =>
           recorded (practice_insert E self topic q) NoFault
             (add_record
                (RGeneratedQuestion
                   (question_record
                      (CoachService.resolve_lesson topic (KnowledgeRepository.all E)) None
                      (MODEL_NAME (CoachService.config self)) q)) (db s)) s
       | f => recorded (practice_insert E self topic q) f (db s) s
       end
     else s).
Proof.
  unfold practice_messages, CoachService.generate_practice_question.
  intros Hm Hq. unfold bind at 1, lift at 1.
  destruct (CoachService.practice_prompt _ topic) as [prompt | e]; [| discriminate].
  simpl in Hm. injection Hm as <-.
  unfold bind at 1, lift at 1. rewrite Hq.
  destruct (truthy_opt (CoachService.current_user_id self)); simpl; [| reflexivity].
  unfold CoachService.store_generated_question, KnowledgeRepository._get_supabase.
  destruct (connected E); simpl; [| reflexivity].
  unfold bind, try_except. rewrite table_insert_eq. cbv zeta.
  by destruct (faults E (tick s)).
Qed.

Lemma generate_practice_question_model_raises `{Interp} E self topic s messages e :
  practice_messages E self topic = Ok messages ->
  ModelHandler.generate E messages (Some 256) (Some (8 # 10)%Q) = Raise e ->
  CoachService.generate_practice_question E self topic s = (Raise e, s).
Proof.
  unfold practice_messages, CoachService.generate_practice_question.
  intros Hm Hq. unfold bind at 1, lift at 1.
  destruct (CoachService.practice_prompt _ topic) as [prompt | e']; [| discriminate].
  simpl in Hm. injection Hm as <-.
  unfold bind at 1, lift at 1. by rewrite Hq.
Qed.

Lemma evaluate_answer_model_raises `{Interp} E self question student_answer correct_concept
    s messages e :
  CoachService.evaluation_messages E self question student_answer correct_concept
  = Ok messages ->
  ModelHandler.generate E messages (Some 512) None = Raise e ->
  CoachService.evaluate_answer E self question student_answer correct_concept s
  = (Raise e, s).
Proof.
  intros Hm Hg. unfold CoachService.evaluate_answer, bind, lift. by rewrite Hm, Hg.
Qed.

(** X8. [generate_practice_question] and the store.  The prompt is always
    assembled.  If the model raises, so does the call, and nothing is
    written.  If the model gives [q], the call returns [q] whatever the store
    does; signed out or without a connection it leaves the state as it was;
    signed in and connected it sends one insert, and when that takes effect
    the question row holds the lesson found for the topic, no query id, the
    configured model name and [q].  No other table changes. *)
Theorem generate_practice_question_recording `{Interp} E self topic s :
  exists messages,
    practice_messages E self topic = Ok messages
    /\ (forall e,
          ModelHandler.generate E messages (Some 256) (Some (8 # 10)%Q) = Raise e ->
          CoachService.generate_practice_question E self topic s = (Raise e, s))
    /\ forall q,
         ModelHandler.generate E messages (Some 256) (Some (8 # 10)%Q) = Ok q ->
         let out := CoachService.generate_practice_question E self topic s in
         fst out = Ok q
         /\ (truthy_opt (CoachService.current_user_id self) = false \/ connected E = false ->
             snd out = s)
         /\ (truthy_opt (CoachService.current_user_id self) = true -> connected E = true ->
             calls (snd out)
             = calls s ++ [(practice_insert E self topic q, faults E (tick s))]
             /\ generated_questions (db (snd out))
                = generated_questions (db s)
                  ++ match faults E (tick s) with
                     | NoFault =>
                         [(next_id (db s),
                           question_record
                             (CoachService.resolve_lesson topic (KnowledgeRepository.all E))
                             None (MODEL_NAME (CoachService.config self)) q)]
                     | _ => []
                     end)
         /\ same_attachments_queries (db s) (db (snd out))
         /\ answers (db (snd out)) = answers (db s).
Proof.
  destruct (practice_messages_ok E self topic) as [messages Hm].
  exists messages. split; [exact Hm |]. split.
  - intros e Hq. by apply generate_practice_question_model_raises with messages.
  - intros q Hq out. subst out.
    rewrite (generate_practice_question_eq E self topic s messages q Hm Hq).
    split; [reflexivity |]. split; [| split; [| split]].
    + intros [-> | ->]; [done | by rewrite andb_false_r].
    + intros -> ->. simpl. destruct (faults E (tick s)); simpl; by rewrite ?app_nil_r.
    + destruct (_ && _); [| done]. by destruct (faults E (tick s)).
    + destruct (_ && _); [| done]. by destruct (faults E (tick s)).
Qed.

(** X9. [CoachController.evaluate], which is [evaluate_answer], and the rest of
    the store.  The prompt is always assembled.  If the model raises, so does
    the call, and nothing is written.  If the model answers, the call returns
    the answer, adds at most one row to the answers and leaves the
    attachments, the queries, the generated questions, the embedding index
    and the log as they were. *)
Theorem evaluate_leaves_rest `{Interp} E service question student_answer correct_concept s :
  exists messages,
    CoachService.evaluation_messages E service question student_answer correct_concept
    = Ok messages
    /\ (forall e,
          ModelHandler.generate E messages (Some 512) None = Raise e ->
          CoachController.evaluate E service question student_answer correct_concept s
          = (Raise e, s))
    /\ forall resp,
         ModelHandler.generate E messages (Some 512) None = Ok resp ->
         let out :=
           CoachController.evaluate E service question student_answer correct_concept s in
         fst out = Ok resp
         /\ same_attachments_queries (db s) (db (snd out))
         /\ generated_questions (db (snd out)) = generated_questions (db s)
         /\ logged (snd out) = logged s
         /\ (answers (db (snd out)) = answers (db s)
             \/ answers (db (snd out))
                = answers (db s)
                  ++ [(next_id (db s),
                       CoachService.answer_record service student_answer resp)]).
Proof.
  destruct (evaluation_messages_ok E service question student_answer correct_concept)
    as [messages Hm].
  exists messages. split; [exact Hm |]. split.
  - intros e Hg. unfold CoachController.evaluate.
    by apply evaluate_answer_model_raises with messages.
  - intros resp Hg out. subst out. unfold CoachController.evaluate.
    rewrite (evaluate_answer_eq E service question student_answer correct_concept s
               messages resp Hm Hg).
    split; [reflexivity |].
    destruct (_ && _); simpl; [| by repeat split; auto].
    destruct (faults E (tick s)); simpl; repeat split; auto.
Qed.

(** X10. After a sign-out ([set_user_context] with no id, or an empty one)
    neither [evaluate_answer] nor [generate_practice_question] writes
    anything, whoever was signed in before and whatever the world does. *)
Theorem signed_out_records_nothing `{Interp} E self user_id question student_answer
    correct_concept topic s :
  truthy_opt user_id = false ->
  let self' := CoachService.set_user_context self user_id in
  snd (CoachService.evaluate_answer E self' question student_answer correct_concept s) = s
  /\ snd (CoachService.generate_practice_question E self' topic s) = s.
Proof.
  intros Hout self'.
  assert (truthy_opt (CoachService.current_user_id self') = false) as Hnone.
  { subst self'. unfold CoachService.set_user_context. simpl. by rewrite Hout. }
  split.
  - destruct (evaluation_messages_ok E self' question student_answer correct_concept)
      as [messages Hm].
    destruct (ModelHandler.generate E messages (Some 512) None) as [resp | e] eqn:Hg.
    + rewrite (evaluate_answer_eq E self' question student_answer correct_concept s
                 messages resp Hm Hg).
      by rewrite Hnone, andb_false_r.
    + by rewrite (evaluate_answer_model_raises E self' question student_answer
                    correct_concept s messages e Hm Hg).
  - destruct (practice_messages_ok E self' topic) as [messages Hm].
    destruct (ModelHandler.generate E messages (Some 256) (Some (8 # 10)%Q))
      as [q | e] eqn:Hq.
    + rewrite (generate_practice_question_eq E self' topic s messages q Hm Hq).
      by rewrite Hnone.
    + by rewrite (generate_practice_question_model_raises E self' topic s messages e Hm Hq).
Qed.

Lemma signed_out_records_nothing_witness :
  let W := Scenario.world [Scenario.sums] Scenario.calm true in
  truthy_opt (Some EmptyString) = false
  /\ snd (CoachService.evaluate_answer (H := Scenario.interp) W
            (CoachService.set_user_context Scenario.service (Some EmptyString))
            "What is 2+2?" "4" "addition" Scenario.start) = Scenario.start
  /\ snd (CoachService.generate_practice_question (H := Scenario.interp) W
            (CoachService.set_user_context Scenario.service (Some EmptyString))
            "sums" Scenario.start) = Scenario.start.
Proof.
  intros W. split; [reflexivity |].
  apply (signed_out_records_nothing (H := Scenario.interp) W Scenario.service
           (Some EmptyString) "What is 2+2?" "4" "addition" "sums" Scenario.start).
  reflexivity.
Defined.

(** A signed-in run: the question row that is written. *)
Example generate_practice_question_signed_in :
  let out :=
    CoachService.generate_practice_question (H := Scenario.interp)
      (Scenario.world [Scenario.algebra; Scenario.sums] Scenario.calm true)
      Scenario.service " Sums" Scenario.start in
  fst out = Ok "What is 3 + 4?"
  /\ generated_questions (db (snd out))
     = [(1%positive, question_record (Some 2%positive) None "coach" "What is 3 + 4?")].
Proof. vm_compute. by split. Qed.

(** ** Recording a query: the loops under any fate of their calls *)

(** The upload loop changes nothing but the attachments and the next
    identifier; a row there afterwards is an old one or a fresh upload with
    no query id; and the ids it returns, beyond those it was given, are
    identifiers the store had not issued before. *)
Lemma upload_all_any E self uid cts images : forall i acc s,
  let out := CoachService.upload_all E self uid cts i images acc s in
  user_queries (db (snd out)) = user_queries (db s)
  /\ answers (db (snd out)) = answers (db s)
  /\ generated_questions (db (snd out)) = generated_questions (db s)
  /\ embeddings (db (snd out)) = embeddings (db s)
  /\ logged (snd out) = logged s
  /\ (forall aid a, attachments (db (snd out)) !! aid = Some a ->
        attachments (db s) !! aid = Some a \/ Attachment.query_id a = None)
  /\ (forall ids, fst out = Ok ids ->
        forall a, In a ids -> In a acc \/ (next_id (db s) <= a)%positive).
Proof.
  induction images as [| b rest IH]; intros i acc s out; subst out.
  - simpl. repeat split; auto. intros ids [= <-]. auto.
  - rewrite upload_all_cons. cbv zeta.
    set (s1 := {| db := db s; tick := S (tick s); calls := calls s; logged := logged s |}).
    set (c := CUploadAttachment _ _ _ _ _).
    destruct (faults E (S (tick s))).
    + set (s2 := recorded c NoFault _ s1).
      destruct (IH (S i) (acc ++ [next_id (db s)]) s2)
        as [Huq [Hans [Hgq [Hemb [Hlog [Hrows Hids]]]]]].
      split; [exact Huq |]. split; [exact Hans |]. split; [exact Hgq |].
      split; [exact Hemb |]. split; [exact Hlog |]. split.
      * intros aid a Ha. destruct (Hrows aid a Ha) as [Hold | Hnone]; [| by right].
        simpl in Hold. destruct (decide (next_id (db s) = aid)) as [<- | Hne].
        -- rewrite lookup_insert_eq in Hold. injection Hold as <-. by right.
        -- rewrite lookup_insert_ne in Hold by done. by left.
      * intros ids Hok a Ha. destruct (Hids ids Hok a Ha) as [Hacc | Hge].
        -- apply in_app_or in Hacc as [Hacc | [<- | []]]; [by left | right; lia].
        -- right. simpl in Hge. lia.
    + set (s2 := recorded c Empty _ s1).
      exact (IH (S i) acc s2).
    + simpl. repeat split; auto. intros ids Hids. discriminate Hids.
Qed.

(** The back-fill loop, whatever happens to its updates: it returns; it
    attempts the update of every attachment, in order; besides updates it
    sends only log lines, one for each update that raised; it changes no
    table but the attachments, and there only the rows it was given. *)
Lemma backfill_any E qid uid cts ids : forall idx s,
  let out := CoachService.backfill E qid uid cts idx ids s in
  exists new lines,
    calls (snd out) = calls s ++ new
    /\ Forall (fun cf => is_update (fst cf) || is_log (fst cf) = true) new
    /\ map fst (List.filter (fun cf => is_update (fst cf)) new)
       = update_calls qid uid cts idx ids
    /\ (forall t q md k aid,
          In (CTableUpdate t q md k aid, Fails) new ->
          exists f, In (CLog (update_failure_line E aid q (StoreError "table_update")), f) new
                    /\ (f <> Fails ->
                        In (update_failure_line E aid q (StoreError "table_update")) lines))
    /\ logged (snd out) = logged s ++ lines
    /\ user_queries (db (snd out)) = user_queries (db s)
    /\ answers (db (snd out)) = answers (db s)
    /\ generated_questions (db (snd out)) = generated_questions (db s)
    /\ embeddings (db (snd out)) = embeddings (db s)
    /\ next_id (db (snd out)) = next_id (db s)
    /\ (forall aid, ~ In aid ids ->
          attachments (db (snd out)) !! aid = attachments (db s) !! aid).
Proof.
  induction ids as [| aid rest IH]; intros idx s out; subst out.
  - exists [], []. simpl. rewrite !app_nil_r. repeat split; auto.
    intros ? ? ? ? ? [].
  - rewrite backfill_cons. cbv zeta.
    set (md := CoachService.backfill_metadata qid uid cts idx).
    set (c := CTableUpdate "attachments" qid md "id" aid).
    destruct (faults E (tick s)) eqn:Hf.
    + set (s1 := recorded c NoFault _ s).
      destruct (IH (S idx) s1)
        as [new [lines [Hcalls [Hkinds [Htrace [Hlogs [Hlines
              [Huq [Hans [Hgq [Hemb [Hnext Hother]]]]]]]]]]]].
      exists ((c, NoFault) :: new), lines.
      split; [rewrite Hcalls; simpl; by rewrite <- app_assoc |].
      split; [by constructor |]. split; [simpl; by rewrite Htrace |].
      split; [| split; [exact Hlines |]].
      * intros t q md' k aid' [[=] | Hin].
        destruct (Hlogs t q md' k aid' Hin) as [f [Hlog Hline]].
        exists f. split; [by right | exact Hline].
      * repeat split; auto.
        intros aid' Hnotin. rewrite Hother by (intros Hin; apply Hnotin; by right).
        simpl. apply lookup_alter_ne. intros ->. apply Hnotin. by left.
    + set (s1 := recorded c Empty _ s).
      destruct (IH (S idx) s1)
        as [new [lines [Hcalls [Hkinds [Htrace [Hlogs [Hlines
              [Huq [Hans [Hgq [Hemb [Hnext Hother]]]]]]]]]]]].
      exists ((c, Empty) :: new), lines.
      split; [rewrite Hcalls; simpl; by rewrite <- app_assoc |].
      split; [by constructor |]. split; [simpl; by rewrite Htrace |].
      split; [| split; [exact Hlines |]].
      * intros t q md' k aid' [[=] | Hin].
        destruct (Hlogs t q md' k aid' Hin) as [f [Hlog Hline]].
        exists f. split; [by right | exact Hline].
      * repeat split; auto.
        intros aid' Hnotin. apply Hother. intros Hin. apply Hnotin. by right.
    + set (line := update_failure_line E aid qid (StoreError "table_update")).
      set (s1 := recorded c Fails (db s) s).
      assert (exists s',
                snd (try_except (KnowledgeRepository._log E line) (fun _ => ret tt) s1) = s'
                /\ calls s' = calls s1 ++ [(CLog line, faults E (tick s1))]
                /\ db s' = db s
                /\ logged s'
                   = logged s ++ (if faults E (tick s1) is Fails then [] else [line]))
        as [s' [Hs' [Hlogcall [Hdb Hlogged]]]].
      { unfold KnowledgeRepository._log. run.
        destruct (faults E (S (tick s))); eexists; (split; [reflexivity |]);
          simpl; rewrite ?app_nil_r; by repeat split. }
      match goal with
      | |- context [snd (try_except (KnowledgeRepository._log E ?m) ?h ?s0)] =>
          change (snd (try_except (KnowledgeRepository._log E m) h s0))
            with (snd (try_except (KnowledgeRepository._log E line) (fun _ => ret tt) s1))
      end.
      rewrite Hs'.
      destruct (IH (S idx) s')
        as [new [lines [Hcalls [Hkinds [Htrace [Hlogs [Hlines
              [Huq [Hans [Hgq [Hemb [Hnext Hother]]]]]]]]]]]].
      exists ((c, Fails) :: (CLog line, faults E (tick s1)) :: new),
        ((if faults E (tick s1) is Fails then [] else [line]) ++ lines).
      split; [rewrite Hcalls, Hlogcall; simpl; by rewrite <- !app_assoc |].
      split; [by repeat constructor |]. split; [simpl; by rewrite Htrace |].
      split; [| split].
      * intros t q md' k aid' [Heq | [[=] | Hin]].
        -- injection Heq as <- <- <- <- <-. exists (faults E (tick s1)).
           split; [right; by left |]. intros Hnf.
           apply in_or_app. left. destruct (faults E (tick s1)); [by left | by left | done].
        -- destruct (Hlogs t q md' k aid' Hin) as [f [Hlog Hline]].
           exists f. split; [by do 2 right |]. intros Hnf.
           apply in_or_app. right. by apply Hline.
      * by rewrite Hlines, Hlogged, <- app_assoc.
      * rewrite Huq, Hans, Hgq, Hemb, Hnext, Hdb. repeat split; auto.
        intros aid' Hnotin. rewrite Hother by (intros Hin; apply Hnotin; by right).
        by rewrite Hdb.
Qed.

(** The upload loop only moves the store's next identifier forward, and the
    ids it returns are below where it leaves it. *)
Lemma upload_all_bounds E self uid cts images : forall i acc s,
  let out := CoachService.upload_all E self uid cts i images acc s in
  (forall a, In a acc -> (a < next_id (db s))%positive) ->
  (next_id (db s) <= next_id (db (snd out)))%positive
  /\ (forall ids, fst out = Ok ids ->
        forall a, In a ids -> (a < next_id (db (snd out)))%positive).
Proof.
  induction images as [| b rest IH]; intros i acc s out Hacc; subst out.
  - simpl. split; [lia |]. by intros ids [= <-].
  - rewrite upload_all_cons. cbv zeta.
    set (s1 := {| db := db s; tick := S (tick s); calls := calls s; logged := logged s |}).
    set (c := CUploadAttachment _ _ _ _ _).
    destruct (faults E (S (tick s))).
    + set (s2 := recorded c NoFault _ s1).
      destruct (IH (S i) (acc ++ [next_id (db s)]) s2) as [Hle Hids].
      { intros a Ha. simpl. apply in_app_or in Ha as [Ha | [<- | []]]; [| lia].
        specialize (Hacc a Ha). lia. }
      split; [simpl in Hle; lia | exact Hids].
    + set (s2 := recorded c Empty _ s1).
      exact (IH (S i) acc s2 Hacc).
    + simpl. split; [lia |]. intros ids Hids. discriminate Hids.
Qed.

(** A row the back-fill loop leaves behind is the row that was there, as it
    was or linked to the query of this run. *)
Lemma backfill_rows E qid uid cts ids : forall idx s aid a,
  attachments (db (snd (CoachService.backfill E qid uid cts idx ids s))) !! aid = Some a ->
  exists a0,
    attachments (db s) !! aid = Some a0
    /\ (a = a0 \/ Attachment.query_id a = Some qid).
Proof.
  induction ids as [| aid0 rest IH]; intros idx s aid a.
  - simpl. intros Ha. exists a. by split; [| left].
  - rewrite backfill_cons. cbv zeta.
    destruct (faults E (tick s)).
    + intros Ha. destruct (IH _ _ _ _ Ha) as [a1 [Ha1 Hor]]. simpl in Ha1.
      destruct (decide (aid0 = aid)) as [<- | Hne].
      * rewrite lookup_alter_eq in Ha1.
        destruct (attachments (db s) !! aid0) as [a0 |] eqn:Ha0; [| discriminate].
        simpl in Ha1. injection Ha1 as <-. exists a0. split; [reflexivity |].
        right. by destruct Hor as [-> | Hq].
      * rewrite lookup_alter_ne in Ha1 by done. by exists a1.
    + intros Ha. exact (IH _ _ _ _ Ha).
    + match goal with
      | |- context [try_except (KnowledgeRepository._log E ?m) _ ?s1] =>
          destruct (log_caught E m s1) as [s' [Hlog [_ Hdb]]]
      end.
      rewrite Hlog. cbn [snd]. intros Ha.
      destruct (IH _ _ _ _ Ha) as [a1 [Ha1 Hor]]. rewrite Hdb in Ha1. by exists a1.
Qed.

(** What the upload loop sends: one upload at most for each image, each for
    the image at its position, and no more ids than images. *)
Lemma upload_all_trace E self uid cts images : forall i acc s,
  let out := CoachService.upload_all E self uid cts i images acc s in
  exists new,
    calls (snd out) = calls s ++ new
    /\ (length new <= length images)%nat
    /\ Forall (fun cf =>
                 exists j hex b,
                   images !! j = Some b
                   /\ fst cf
                      = CUploadAttachment uid
                          (SUPABASE_STORAGE_BUCKET (CoachService.config self))
                          (CoachService.attachment_path hex (i + j)) b
                          (default "image/png" (CoachService.content_type_at cts (i + j))))
         new
    /\ (forall ids, fst out = Ok ids ->
          (length ids <= length acc + length images)%nat).
Proof.
  induction images as [| b rest IH]; intros i acc s out; subst out.
  - exists []. simpl. rewrite app_nil_r. split; [done |]. split; [lia |].
    split; [constructor |]. intros ids [= <-]. lia.
  - rewrite upload_all_cons. cbv zeta.
    set (s1 := {| db := db s; tick := S (tick s); calls := calls s; logged := logged s |}).
    set (c := CUploadAttachment _ _ _ _ _).
    assert (exists j hex b0,
              (b :: rest) !! j = Some b0
              /\ c = CUploadAttachment uid
                       (SUPABASE_STORAGE_BUCKET (CoachService.config self))
                       (CoachService.attachment_path hex (i + j)) b0
                       (default "image/png" (CoachService.content_type_at cts (i + j))))
      as Hhead.
    { exists 0%nat, (entropy E (tick s)), b. rewrite Nat.add_0_r. by split. }
    assert (forall new : list (call * fault),
              Forall (fun cf =>
                        exists j hex b0,
                          rest !! j = Some b0
                          /\ fst cf
                             = CUploadAttachment uid
                                 (SUPABASE_STORAGE_BUCKET (CoachService.config self))
                                 (CoachService.attachment_path hex (S i + j)) b0
                                 (default "image/png"
                                    (CoachService.content_type_at cts (S i + j)))) new ->
              Forall (fun cf =>
                        exists j hex b0,
                          (b :: rest) !! j = Some b0
                          /\ fst cf
                             = CUploadAttachment uid
                                 (SUPABASE_STORAGE_BUCKET (CoachService.config self))
                                 (CoachService.attachment_path hex (i + j)) b0
                                 (default "image/png"
                                    (CoachService.content_type_at cts (i + j)))) new)
      as Hshift.
    { intros new Hnew. eapply Forall_impl; [exact Hnew |]. intros cf (j & hex & b0 & Hj & Hcf).
      exists (S j), hex, b0. rewrite Nat.add_succ_r. by split. }
    destruct (faults E (S (tick s))).
    + set (s2 := recorded c NoFault _ s1).
      destruct (IH (S i) (acc ++ [next_id (db s)]) s2) as (new & Hcalls & Hlen & Hall & Hids).
      exists ((c, NoFault) :: new).
      split; [rewrite Hcalls; simpl; by rewrite <- app_assoc |].
      split; [simpl; lia |]. split; [constructor; [exact Hhead | by apply Hshift] |].
      intros ids Hok. specialize (Hids ids Hok). rewrite length_app in Hids. simpl in *. lia.
    + set (s2 := recorded c Empty _ s1).
      destruct (IH (S i) acc s2) as (new & Hcalls & Hlen & Hall & Hids).
      exists ((c, Empty) :: new).
      split; [rewrite Hcalls; simpl; by rewrite <- app_assoc |].
      split; [simpl; lia |]. split; [constructor; [exact Hhead | by apply Hshift] |].
      intros ids Hok. specialize (Hids ids Hok). simpl in *. lia.
    + exists [(c, Fails)]. split; [done |]. split; [simpl; lia |].
      split; [by repeat constructor |]. intros ids Hids. discriminate Hids.
Qed.

(** ** Recording a query: the ways a run can go *)

(** A run of [store_user_query] goes one of three ways after its uploads:
    no insert is sent (an upload raised, the query did not embed, or there is
    no connection); the insert is sent and does not take effect; or it takes
    effect, the back-fill runs, and the embedding of the query is written,
    whose failure alone then decides between the id and nothing. *)
Lemma store_user_query_cases E self u t images cts s :
  let up := CoachService.upload_all E self u cts 0 images [] s in
  let s1 := snd up in
  let out := CoachService.store_user_query E self u t (Some images) cts s in
  out = (Ok None, s1)
  \/ (exists ids f,
        fst up = Ok ids /\ f <> NoFault
        /\ out = (Ok None, recorded (query_insert u t ids) f (db s1) s1))
  \/ (exists ids emb rest f4,
        fst up = Ok ids
        /\ KnowledgeRepository.embed_texts E (CoachService.config self) [t] = Ok (emb :: rest)
        /\ connected E = true
        /\ let q := next_id (db s1) in
           let s2 := recorded (query_insert u t ids) NoFault
                       (add_record (query_record u t ids) (db s1)) s1 in
           let s3 := snd (CoachService.backfill E q u cts 0 ids s2) in
           out = ((if f4 is Fails then Ok None else Ok (Some q)),
                  recorded (query_embedding q emb) f4
                    (if f4 is NoFault
                     then add_embedding (query_embedding_record q emb) (db s3)
                     else db s3) s3)).
Proof.
  intros up s1 out. subst up s1 out. rewrite store_user_query_eq.
  destruct (CoachService.upload_all E self u cts 0 images [] s) as [[ids | e] s1];
    [| by left].
  destruct (KnowledgeRepository.embed_texts E (CoachService.config self) [t])
    as [[| emb rest] | e] eqn:Hemb; [by left | | by left].
  destruct (connected E); [| by left]. cbv zeta. simpl fst. simpl snd.
  destruct (faults E (tick s1)) eqn:Hf1.
  - right. right. exists ids, emb, rest.
    match goal with
    | |- context [faults E (tick ?s3)] =>
        exists (faults E (tick s3)); destruct (faults E (tick s3))
    end; by repeat split.
  - right. left. exists ids, Empty. by repeat split.
  - right. left. exists ids, Fails. by repeat split.
Qed.

Lemma store_user_query_none E self u t cts cts' s :
  CoachService.store_user_query E self u t None cts s
  = CoachService.store_user_query E self u t (Some []) cts' s.
Proof. reflexivity. Qed.

(** What a run of [store_user_query] has sent and written, way by way. *)
Lemma store_user_query_summary E self u t images cts s :
  let out := CoachService.store_user_query E self u t (Some images) cts s in
  exists new1 s1,
    calls s1 = calls s ++ new1
    /\ Forall (fun cf => is_upload (fst cf) = true) new1
    /\ (length new1 <= length images)%nat
    /\ Forall (fun cf => upload_of self u cts images (fst cf)) new1
    /\ user_queries (db s1) = user_queries (db s)
    /\ answers (db s1) = answers (db s)
    /\ generated_questions (db s1) = generated_questions (db s)
    /\ embeddings (db s1) = embeddings (db s)
    /\ logged s1 = logged s
    /\ (next_id (db s) <= next_id (db s1))%positive
    /\ (forall aid, (aid < next_id (db s))%positive ->
          attachments (db s1) !! aid = attachments (db s) !! aid)
    /\ (forall aid a, attachments (db s1) !! aid = Some a ->
          attachments (db s) !! aid = Some a \/ Attachment.query_id a = None)
    /\ (out = (Ok None, s1)
        \/ (exists ids f,
              f <> NoFault
              /\ out = (Ok None, recorded (query_insert u t ids) f (db s1) s1))
        \/ (exists ids emb rest f4 new3 lines s3,
              (forall a, In a ids ->
                 (next_id (db s) <= a)%positive /\ (a < next_id (db s1))%positive)
              /\ (length ids <= length images)%nat
              /\ KnowledgeRepository.embed_texts E (CoachService.config self) [t]
                 = Ok (emb :: rest)
              /\ connected E = true
              /\ calls s3 = calls s1 ++ (query_insert u t ids, NoFault) :: new3
              /\ Forall (fun cf => is_update (fst cf) || is_log (fst cf) = true) new3
              /\ map fst (List.filter (fun cf => is_update (fst cf)) new3)
                 = update_calls (next_id (db s1)) u cts 0 ids
              /\ (forall tb q md k aid,
                    In (CTableUpdate tb q md k aid, Fails) new3 ->
                    exists f,
                      In (CLog (update_failure_line E aid q (StoreError "table_update")), f)
                        new3
                      /\ (f <> Fails ->
                          In (update_failure_line E aid q (StoreError "table_update")) lines))
              /\ logged s3 = logged s ++ lines
              /\ user_queries (db s3)
                 = user_queries (db s)
                   ++ [(next_id (db s1),
                        {| UserQuery.user_id := u; UserQuery.text_query := t;
                           UserQuery.image_attachment_ids := ids |})]
              /\ answers (db s3) = answers (db s)
              /\ generated_questions (db s3) = generated_questions (db s)
              /\ embeddings (db s3) = embeddings (db s)
              /\ (forall aid, ~ In aid ids ->
                    attachments (db s3) !! aid = attachments (db s1) !! aid)
              /\ (forall aid a, attachments (db s3) !! aid = Some a ->
                    exists a0,
                      attachments (db s1) !! aid = Some a0
                      /\ (a = a0 \/ Attachment.query_id a = Some (next_id (db s1))))
              /\ out = ((if f4 is Fails then Ok None else Ok (Some (next_id (db s1)))),
                        recorded (query_embedding (next_id (db s1)) emb) f4
                          (if f4 is NoFault
                           then add_embedding
                                  (query_embedding_record (next_id (db s1)) emb) (db s3)
                           else db s3) s3))).
Proof.
  intros out.
  pose proof (store_user_query_cases E self u t images cts s) as Hcases.
  pose proof (upload_all_run E self u cts images 0 [] s) as Hrun.
  pose proof (upload_all_any E self u cts images 0 [] s) as Hany.
  pose proof (upload_all_bounds E self u cts images 0 [] s) as Hbounds.
  pose proof (upload_all_trace E self u cts images 0 [] s) as Htr.
  cbv zeta in Hcases, Hrun, Hany, Hbounds, Htr. fold out in Hcases.
  destruct (CoachService.upload_all E self u cts 0 images [] s) as [r1 s1].
  cbn [fst snd] in *.
  destruct Hrun as [new1 [Hcalls1 [Hup1 [Hbelow _]]]].
  destruct Hany as [Huq [Hans [Hgq [Hemb [Hlog [Hrows Hids]]]]]].
  destruct Hbounds as [Hle Hlt]; [by intros a [] |].
  destruct Htr as (new1' & Hcalls1' & Hlen1 & Hof1 & Hcount).
  assert (new1' = new1) as -> by (rewrite Hcalls1 in Hcalls1'; by apply app_inv_head in Hcalls1').
  exists new1, s1.
  split; [exact Hcalls1 |]. split; [exact Hup1 |]. split; [exact Hlen1 |].
  split; [exact Hof1 |]. split; [exact Huq |].
  split; [exact Hans |]. split; [exact Hgq |]. split; [exact Hemb |].
  split; [exact Hlog |]. split; [exact Hle |]. split; [exact Hbelow |]. split; [exact Hrows |].
  destruct Hcases as [HA | [[ids [f [_ [Hf HB]]]] | [ids [emb [rest [f4 [Hr1 [He [Hc HC]]]]]]]]].
  - by left.
  - right. left. by exists ids, f.
  - right. right.
    set (s2 := recorded (query_insert u t ids) NoFault
                 (add_record (query_record u t ids) (db s1)) s1) in *.
    pose proof (backfill_any E (next_id (db s1)) u cts ids 0 s2) as Hbf.
    cbv zeta in Hbf.
    destruct Hbf as [new3 [lines [Hcalls3 [Hkinds [Htrace [Hlogs [Hlines
                      [Huq3 [Hans3 [Hgq3 [Hemb3 [Hnext3 Hother]]]]]]]]]]]].
    exists ids, emb, rest, f4, new3, lines,
      (snd (CoachService.backfill E (next_id (db s1)) u cts 0 ids s2)).
    split.
    { intros a Ha. split; [| exact (Hlt ids Hr1 a Ha)].
      destruct (Hids ids Hr1 a Ha) as [[] | Hge]. exact Hge. }
    split; [exact (Hcount ids Hr1) |].
    split; [exact He |]. split; [exact Hc |].
    split; [by rewrite Hcalls3; simpl; rewrite <- app_assoc |].
    split; [exact Hkinds |]. split; [exact Htrace |]. split; [exact Hlogs |].
    split; [by rewrite Hlines; simpl; rewrite Hlog |].
    split; [by rewrite Huq3; simpl; rewrite Huq |].
    split; [by rewrite Hans3; simpl |]. split; [by rewrite Hgq3; simpl |].
    split; [by rewrite Hemb3; simpl |].
    split; [intros aid Hn; exact (Hother aid Hn) |].
    split; [| exact HC].
    intros aid a Ha.
    exact (backfill_rows E (next_id (db s1)) u cts ids 0 s2 aid a Ha).
Qed.

Lemma store_user_query_default E self u t images cts s :
  CoachService.store_user_query E self u t images cts s
  = CoachService.store_user_query E self u t (Some (default [] images)) cts s.
Proof. by destruct images. Qed.

Lemma app_one_neq {A} (l : list A) x : l <> l ++ [x].
Proof.
  intros Heq. apply (f_equal length) in Heq. rewrite length_app in Heq. simpl in Heq. lia.
Qed.

Ltac open_summary E self u t images cts s :=
  rewrite (store_user_query_default E self u t images cts s) in *;
  destruct (store_user_query_summary E self u t (default [] images) cts s)
    as (new1 & s1 & Hcalls1 & Hup1 & Hlen1 & Hof1 & Huq1 & Hans1 & Hgq1 & Hemb1 & Hlog1 & Hle1 & Hbelow1
        & Hrows1 & Hways);
  destruct Hways
    as [Hout | [(ids & f & Hf & Hout)
       | (ids & emb & rest & f4 & new3 & lines & s3 & Hids & Hcount & He & Hc & Hcalls3 & Hkinds3
          & Htrace3 & Hlogs3 & Hlines3 & Huq3 & Hans3 & Hgq3 & Hemb3 & Hother3
          & Hrows3 & Hout)]];
  rewrite Hout in *; cbn [fst snd] in *.

(** ** Recording a query *)

(** X11. Submitting a query never raises and never disturbs what the store
    already holds: attachment rows below the next identifier, answers and
    generated questions stay as they are; the queries and the side index
    grow by one row at most, and a new query row carries the user and the
    text that were given. *)
Theorem submit_query_isolation E service u t images cts s :
  let out := CoachController.submit_query E service u t images cts s in
  (exists r, fst out = Ok r)
  /\ (forall aid, (aid < next_id (db s))%positive ->
        attachments (db (snd out)) !! aid = attachments (db s) !! aid)
  /\ (exists more,
        user_queries (db (snd out)) = user_queries (db s) ++ more
        /\ (length more <= 1)%nat
        /\ Forall (fun r => UserQuery.user_id (snd r) = u
                            /\ UserQuery.text_query (snd r) = t) more)
  /\ answers (db (snd out)) = answers (db s)
  /\ generated_questions (db (snd out)) = generated_questions (db s)
  /\ (exists more,
        embeddings (db (snd out)) = embeddings (db s) ++ more /\ (length more <= 1)%nat).
Proof.
  intros out. subst out. unfold CoachController.submit_query.
  open_summary E service u t images cts s.
  - split; [by eexists |]. split; [exact Hbelow1 |].
    split; [exists []; rewrite app_nil_r; split; [done |]; split; [simpl; lia | constructor] |].
    split; [done |]. split; [done |]. exists []. rewrite app_nil_r. split; [done | simpl; lia].
  - split; [by eexists |]. split; [exact Hbelow1 |].
    split; [exists []; rewrite app_nil_r; split; [done |]; split; [simpl; lia | constructor] |].
    split; [done |]. split; [done |]. exists []. rewrite app_nil_r. split; [done | simpl; lia].
  - split; [destruct f4; by eexists |].
    assert (forall aid, (aid < next_id (db s))%positive ->
              attachments (db s3) !! aid = attachments (db s) !! aid) as Hbelow3.
    { intros aid Hlt. rewrite Hother3; [by apply Hbelow1 |].
      intros Hin. destruct (Hids aid Hin). lia. }
    split; [by destruct f4 |].
    split.
    { eexists [_]. split; [destruct f4; exact Huq3 |]. split; [simpl; lia |].
      by repeat constructor. }
    split; [by destruct f4 |]. split; [by destruct f4 |].
    destruct f4; simpl.
    + eexists [_]. rewrite Hemb3. split; [done | simpl; lia].
    + exists []. rewrite app_nil_r. split; [done | simpl; lia].
    + exists []. rewrite app_nil_r. split; [done | simpl; lia].
Qed.

Lemma uploads_no_updates (l : list (call * fault)) :
  Forall (fun cf => is_upload (fst cf) = true) l ->
  List.filter (fun cf => is_update (fst cf)) l = []
  /\ Forall (fun cf => is_update (fst cf) = false) l.
Proof.
  induction 1 as [| [c f] l Hc _ [IH1 IH2]]; [by split |].
  simpl in *. destruct c; try discriminate. simpl. split; [exact IH1 | by constructor].
Qed.

(** What a run that wrote the query row has sent: the uploads, the insert,
    the back-fill calls, the side-index call. *)
Lemma store_user_query_trace s s1 s3 new1 new3 (c1 c2 : call) f4 tbl :
  calls s1 = calls s ++ new1 ->
  calls s3 = calls s1 ++ (c1, NoFault) :: new3 ->
  new_calls s (recorded c2 f4 tbl s3) = new1 ++ (c1, NoFault) :: new3 ++ [(c2, f4)].
Proof.
  intros H1 H3. apply new_calls_app. simpl. rewrite H3, H1.
  by rewrite <- !app_assoc.
Qed.

(** X12. An id comes back only for a query row that is in the store: the row
    carries the user, the text and the ids of the attachments, all issued
    during this run and before the query's own id; the text was embedded,
    the side-index call came last and did not raise, and its row is there
    when the call took effect. *)
Theorem store_user_query_returned_id E self u t images cts s q :
  let out := CoachService.store_user_query E self u t images cts s in
  fst out = Ok (Some q) ->
  (next_id (db s) <= q)%positive
  /\ exists ids emb rest f,
       (forall a, In a ids -> (next_id (db s) <= a)%positive /\ (a < q)%positive)
       /\ user_queries (db (snd out))
          = user_queries (db s)
            ++ [(q, {| UserQuery.user_id := u; UserQuery.text_query := t;
                       UserQuery.image_attachment_ids := ids |})]
       /\ KnowledgeRepository.embed_texts E (CoachService.config self) [t]
          = Ok (emb :: rest)
       /\ connected E = true
       /\ last (new_calls s (snd out)) = Some (query_embedding q emb, f)
       /\ f <> Fails
       /\ embeddings (db (snd out))
          = embeddings (db s) ++ (if f is NoFault then [query_embedding_record q emb] else []).
Proof.
  intros out. subst out.
  open_summary E self u t images cts s; [discriminate | discriminate |].
  intros Hq.
  assert (q = next_id (db s1)) as -> by (destruct f4; congruence).
  split; [exact Hle1 |].
  exists ids, emb, rest, f4.
  split; [exact Hids |].
  split; [by destruct f4 |]. split; [exact He |]. split; [exact Hc |].
  split.
  { rewrite (store_user_query_trace s s1 s3 new1 new3 _ _ f4 _ Hcalls1 Hcalls3).
    by rewrite app_comm_cons, app_assoc, last_snoc. }
  split; [by destruct f4 |].
  destruct f4; simpl; rewrite ?app_nil_r; by rewrite ?Hemb3.
Qed.

(** X13. When the side-index call raises, the id of the query is lost: nothing
    is returned although the query row has been written. *)
Theorem store_user_query_lost_id E self u t images cts s q v :
  let out := CoachService.store_user_query E self u t images cts s in
  In (query_embedding q v, Fails) (new_calls s (snd out)) ->
  fst out = Ok None
  /\ (exists ids,
        user_queries (db (snd out))
        = user_queries (db s)
          ++ [(q, {| UserQuery.user_id := u; UserQuery.text_query := t;
                     UserQuery.image_attachment_ids := ids |})])
  /\ embeddings (db (snd out)) = embeddings (db s).
Proof.
  intros out. subst out.
  open_summary E self u t images cts s.
  - rewrite (new_calls_app _ _ _ Hcalls1). intros Hin.
    rewrite Forall_forall in Hup1. apply list_elem_of_In in Hin.
    by specialize (Hup1 _ Hin).
  - rewrite (new_calls_app s _ (new1 ++ [(query_insert u t ids, f)]))
      by (simpl; by rewrite Hcalls1, <- app_assoc).
    intros Hin. apply in_app_or in Hin as [Hin | [[=] | []]].
    rewrite Forall_forall in Hup1. apply list_elem_of_In in Hin.
    by specialize (Hup1 _ Hin).
  - rewrite (store_user_query_trace s s1 s3 new1 new3 _ _ f4 _ Hcalls1 Hcalls3).
    intros Hin. apply in_app_or in Hin as [Hin | [[=] | Hin]].
    { rewrite Forall_forall in Hup1. apply list_elem_of_In in Hin.
      by specialize (Hup1 _ Hin). }
    apply in_app_or in Hin as [Hin | [Heq | []]].
    { rewrite Forall_forall in Hkinds3. apply list_elem_of_In in Hin.
      by specialize (Hkinds3 _ Hin). }
    injection Heq as Hq Hv Hf4. subst q v f4. simpl.
    split; [done |]. split; [by exists ids |]. done.
Qed.

(** X14. When no query row is written (the text could not be embedded, there is
    no store, the insert did not take effect, or an upload raised), nothing
    is returned and no back-fill is attempted: whatever was uploaded stays
    in the store with no query id. *)
Theorem store_user_query_orphans E self u t images cts s :
  let out := CoachService.store_user_query E self u t images cts s in
  user_queries (db (snd out)) = user_queries (db s) ->
  fst out = Ok None
  /\ Forall (fun cf => is_update (fst cf) = false) (new_calls s (snd out))
  /\ (forall aid a, attachments (db (snd out)) !! aid = Some a ->
        attachments (db s) !! aid = Some a \/ Attachment.query_id a = None)
  /\ embeddings (db (snd out)) = embeddings (db s)
  /\ logged (snd out) = logged s.
Proof.
  intros out. subst out.
  open_summary E self u t images cts s.
  - intros _. rewrite (new_calls_app _ _ _ Hcalls1).
    split; [done |]. split; [by apply uploads_no_updates |]. by repeat split.
  - intros _.
    rewrite (new_calls_app s _ (new1 ++ [(query_insert u t ids, f)]))
      by (simpl; by rewrite Hcalls1, <- app_assoc).
    split; [done |]. split; [| by repeat split].
    apply Forall_app. split; [by apply uploads_no_updates | by repeat constructor].
  - intros Hsame. exfalso.
    assert (user_queries (db s3) = user_queries (db s)) as Heq by (by destruct f4).
    rewrite Huq3 in Heq. symmetry in Heq. by apply app_one_neq in Heq.
Qed.

(** X15. Once the query row is written, the update of every collected attachment
    is attempted, in the order of the ids in the row and whatever happened to
    the updates before it; the metadata of the attachment at position [idx]
    of the collected ids is built from [content_types[idx]].  An update that
    raised is followed by a call to the log with the line for that
    attachment, which is in the log unless that call raised too. *)
Theorem store_user_query_backfill_attempts E self u t images cts s q rec :
  let out := CoachService.store_user_query E self u t images cts s in
  user_queries (db (snd out)) = user_queries (db s) ++ [(q, rec)] ->
  map fst (List.filter (fun cf => is_update (fst cf)) (new_calls s (snd out)))
  = update_calls q u cts 0 (UserQuery.image_attachment_ids rec)
  /\ (forall tb q' md k aid,
        In (CTableUpdate tb q' md k aid, Fails) (new_calls s (snd out)) ->
        exists f,
          In (CLog (update_failure_line E aid q' (StoreError "table_update")), f)
            (new_calls s (snd out))
          /\ (f <> Fails ->
              In (update_failure_line E aid q' (StoreError "table_update"))
                (drop (length (logged s)) (logged (snd out))))).
Proof.
  intros out. subst out.
  open_summary E self u t images cts s.
  - intros Heq. by destruct (app_one_neq _ _ (eq_trans (eq_sym Huq1) Heq)).
  - intros Heq. by destruct (app_one_neq _ _ (eq_trans (eq_sym Huq1) Heq)).
  - intros Heq.
    assert (user_queries (db s3) = user_queries (db s) ++ [(q, rec)]) as Heq'
      by (by destruct f4).
    rewrite Huq3 in Heq'. apply app_inv_head in Heq'. injection Heq' as <- <-.
    rewrite (store_user_query_trace s s1 s3 new1 new3 _ _ f4 _ Hcalls1 Hcalls3).
    split.
    + rewrite List.filter_app. destruct (uploads_no_updates new1 Hup1) as [-> _].
      simpl. rewrite List.filter_app. simpl. by rewrite app_nil_r.
    + intros tb q' md k aid Hin.
      assert (In (CTableUpdate tb q' md k aid, Fails) new3) as Hin3.
      { apply in_app_or in Hin as [Hin | [[=] | Hin]].
        - rewrite Forall_forall in Hup1. apply list_elem_of_In in Hin.
          by specialize (Hup1 _ Hin).
        - apply in_app_or in Hin as [Hin | [[=] | []]]. exact Hin. }
      destruct (Hlogs3 tb q' md k aid Hin3) as [f [Hlog Hline]].
      exists f. split.
      * apply in_or_app. right. right. apply in_or_app. by left.
      * intros Hnf. simpl. rewrite Hlines3, drop_app_length. by apply Hline.
Qed.

(** X16. An attachment row in the store after a run is a row that was there
    before, or has no query id, or belongs to the query row this run wrote
    and is among the attachments that row names: a run links attachments to
    its own query only. *)
Theorem store_user_query_attachment_rows E self u t images cts s aid a :
  let out := CoachService.store_user_query E self u t images cts s in
  attachments (db (snd out)) !! aid = Some a ->
  attachments (db s) !! aid = Some a
  \/ Attachment.query_id a = None
  \/ exists q rec,
       user_queries (db (snd out)) = user_queries (db s) ++ [(q, rec)]
       /\ Attachment.query_id a = Some q
       /\ In aid (UserQuery.image_attachment_ids rec).
Proof.
  intros out. subst out.
  open_summary E self u t images cts s.
  - intros Ha. destruct (Hrows1 aid a Ha); [by left | right; by left].
  - intros Ha. destruct (Hrows1 aid a Ha); [by left | right; by left].
  - intros Ha.
    assert (attachments (db s3) !! aid = Some a) as Ha3 by (by destruct f4).
    destruct (Hrows3 aid a Ha3) as [a0 [Ha0 [-> | Hq]]].
    { destruct (Hrows1 aid a0 Ha0); [by left | right; by left]. }
    destruct (In_dec Pos.eq_dec aid ids) as [Hin | Hnotin].
    + right. right. eexists _, _. split; [destruct f4; exact Huq3 |]. by split.
    + pose proof (eq_trans (eq_sym (Hother3 aid Hnotin)) Ha3) as Ha1.
      destruct (Hrows1 aid a Ha1); [by left | right; by left].
Qed.

Lemma store_user_query_returned_id_witness :
  let W := Scenario.world [] Scenario.calm true in
  let out :=
    CoachService.store_user_query W Scenario.service "alice" "What is 2+2?"
      (Some [[Byte.x89; Byte.x50]]) (Some ["image/png"]) Scenario.start in
  fst out = Ok (Some 2%positive)
  /\ (next_id (db Scenario.start) <= 2)%positive.
Proof.
  intros W out.
  assert (fst out = Ok (Some 2%positive)) as Hres by (vm_compute; reflexivity).
  split; [exact Hres |].
  exact (proj1 (store_user_query_returned_id W Scenario.service "alice" "What is 2+2?"
                  (Some [[Byte.x89; Byte.x50]]) (Some ["image/png"]) Scenario.start
                  2%positive Hres)).
Defined.

Lemma store_user_query_lost_id_witness :
  let W := Scenario.world [] (fun n => if (n =? 1)%nat then Fails else NoFault) true in
  let out :=
    CoachService.store_user_query W Scenario.service "alice" "What is 2+2?" None None
      Scenario.start in
  In (query_embedding 1%positive [1; 0]%Q, Fails) (new_calls Scenario.start (snd out))
  /\ fst out = Ok None
  /\ length (user_queries (db (snd out))) = 1%nat.
Proof.
  intros W out.
  assert (In (query_embedding 1%positive [1; 0]%Q, Fails)
            (new_calls Scenario.start (snd out))) as Hin
    by (vm_compute; right; left; reflexivity).
  split; [exact Hin |].
  destruct (store_user_query_lost_id W Scenario.service "alice" "What is 2+2?" None None
              Scenario.start 1%positive [1; 0]%Q Hin) as [Hres [[ids Hrow] _]].
  split; [exact Hres |]. unfold out. rewrite Hrow. reflexivity.
Defined.

Lemma store_user_query_orphans_witness :
  let W := Scenario.world [] Scenario.calm false in
  let out :=
    CoachService.store_user_query W Scenario.service "alice" "What is 2+2?"
      (Some [[Byte.x89; Byte.x50]]) (Some ["image/png"]) Scenario.start in
  user_queries (db (snd out)) = user_queries (db Scenario.start)
  /\ fst out = Ok None
  /\ Attachment.query_id <$> attachments (db (snd out)) !! 1%positive = Some None.
Proof.
  intros W out.
  assert (user_queries (db (snd out)) = user_queries (db Scenario.start)) as Hsame
    by (vm_compute; reflexivity).
  split; [exact Hsame |].
  split; [| vm_compute; reflexivity].
  exact (proj1 (store_user_query_orphans W Scenario.service "alice" "What is 2+2?"
                  (Some [[Byte.x89; Byte.x50]]) (Some ["image/png"]) Scenario.start Hsame)).
Defined.

Lemma store_user_query_backfill_attempts_witness :
  let W := Scenario.world [] (fun n => if (n =? 3)%nat then Fails else NoFault) true in
  let out :=
    CoachService.store_user_query W Scenario.service "alice" "What is 2+2?"
      (Some [[Byte.x89; Byte.x50]]) (Some ["image/png"]) Scenario.start in
  let rec := {| UserQuery.user_id := "alice"; UserQuery.text_query := "What is 2+2?";
                UserQuery.image_attachment_ids := [1%positive] |} in
  user_queries (db (snd out)) = user_queries (db Scenario.start) ++ [(2%positive, rec)]
  /\ map fst (List.filter (fun cf => is_update (fst cf)) (new_calls Scenario.start (snd out)))
     = update_calls 2%positive "alice" (Some ["image/png"]) 0 [1%positive].
Proof.
  intros W out rec.
  assert (user_queries (db (snd out))
          = user_queries (db Scenario.start) ++ [(2%positive, rec)]) as Hrow
    by (vm_compute; reflexivity).
  split; [exact Hrow |].
  exact (proj1 (store_user_query_backfill_attempts W Scenario.service "alice" "What is 2+2?"
                  (Some [[Byte.x89; Byte.x50]]) (Some ["image/png"]) Scenario.start
                  2%positive rec Hrow)).
Defined.

Lemma store_user_query_attachment_rows_witness :
  let W := Scenario.world [] Scenario.calm true in
  let out :=
    CoachService.store_user_query W Scenario.service "alice" "What is 2+2?"
      (Some [[Byte.x89; Byte.x50]]) (Some ["image/png"]) Scenario.start in
  let a := link 2%positive
             (CoachService.backfill_metadata 2%positive "alice" (Some ["image/png"]) 0)
             (uploaded "alice" "attachments" (CoachService.attachment_path "u0" 0)
                "image/png") in
  attachments (db (snd out)) !! 1%positive = Some a
  /\ (attachments (db Scenario.start) !! 1%positive = Some a
      \/ Attachment.query_id a = None
      \/ exists q rec,
           user_queries (db (snd out)) = user_queries (db Scenario.start) ++ [(q, rec)]
           /\ Attachment.query_id a = Some q
           /\ In 1%positive (UserQuery.image_attachment_ids rec)).
Proof.
  intros W out a.
  assert (attachments (db (snd out)) !! 1%positive = Some a) as Ha
    by (vm_compute; reflexivity).
  split; [exact Ha |].
  exact (store_user_query_attachment_rows W Scenario.service "alice" "What is 2+2?"
           (Some [[Byte.x89; Byte.x50]]) (Some ["image/png"]) Scenario.start
           1%positive a Ha).
Defined.

(** X17. Without attachments ([None] or an empty list, the same to the code) the
    content types play no part, nothing is uploaded, updated or logged, and
    the run sends the insert and the side-index call at most. *)
Theorem store_user_query_without_images E self u t cts cts' s :
  let out := CoachService.store_user_query E self u t None cts s in
  CoachService.store_user_query E self u t (Some []) cts' s = out
  /\ attachments (db (snd out)) = attachments (db s)
  /\ logged (snd out) = logged s
  /\ (new_calls s (snd out) = []
      \/ (exists f, f <> NoFault /\ new_calls s (snd out) = [(query_insert u t [], f)])
      \/ (exists emb f,
            new_calls s (snd out)
            = [(query_insert u t [], NoFault);
               (query_embedding (next_id (db s)) emb, f)])).
Proof.
  intros out. subst out.
  split; [reflexivity |].
  rewrite (store_user_query_none E self u t cts cts s).
  destruct (store_user_query_cases E self u t [] cts s)
    as [Hout | [(ids & f & Hids & Hf & Hout) | (ids & emb & rest & f4 & Hids & _ & _ & Hout)]];
    cbn [CoachService.upload_all ret fst snd] in *.
  - rewrite Hout. simpl. split; [done |]. split; [done |]. left. apply new_calls_same.
  - injection Hids as <-. rewrite Hout. simpl. split; [done |]. split; [done |].
    right. left. exists f. split; [done |]. by apply new_calls_app.
  - injection Hids as <-. cbn [CoachService.backfill ret fst snd] in Hout.
    rewrite Hout. cbn [fst snd].
    split; [by destruct f4 |]. split; [done |].
    right. right. exists emb, f4. apply new_calls_app. simpl. by rewrite <- app_assoc.
Qed.

(** ** Recording a generated question *)

(** X18. [CoachController.generate_question], which is
    [store_generated_question], returns an id exactly when its row is in the
    table under that id afterwards; it raises only with a store connection,
    and then nothing was written; and it never touches another table or the
    log.  Whatever happens, at most the one insert was sent. *)
Theorem generate_question_outcome E service lesson_id query_id text author s :
  let out := CoachController.generate_question E service lesson_id query_id text author s in
  let row := question_record lesson_id query_id author text in
  (forall i, fst out = Ok (Some i)
             <-> generated_questions (db (snd out)) = generated_questions (db s) ++ [(i, row)]
                 /\ i = next_id (db s))
  /\ (forall e, fst out = Raise e ->
        connected E = true /\ e = StoreError "table_insert" /\ db (snd out) = db s)
  /\ (fst out = Ok None -> db (snd out) = db s)
  /\ attachments (db (snd out)) = attachments (db s)
  /\ user_queries (db (snd out)) = user_queries (db s)
  /\ answers (db (snd out)) = answers (db s)
  /\ embeddings (db (snd out)) = embeddings (db s)
  /\ logged (snd out) = logged s
  /\ (new_calls s (snd out) = []
      \/ exists f,
           new_calls s (snd out)
           = [(CTableInsert "generated_questions" (RGeneratedQuestion row), f)]).
Proof.
  intros out row. subst out row.
  unfold CoachController.generate_question, CoachService.store_generated_question,
    KnowledgeRepository._get_supabase.
  destruct (connected E).
  - rewrite table_insert_eq. cbv zeta. unfold question_record.
    destruct (faults E (tick s)); cbn [fst snd db recorded add_record logged].
    + split.
      { intros i. split.
        - intros [= <-]. by split.
        - intros [_ ->]. reflexivity. }
      split; [discriminate |]. split; [discriminate |].
      repeat (split; [reflexivity |]). right. eexists. by apply new_calls_app.
    + split.
      { intros i. split; [discriminate |]. intros [Heq _]. by apply app_one_neq in Heq. }
      split; [discriminate |]. split; [done |].
      repeat (split; [reflexivity |]). right. eexists. by apply new_calls_app.
    + split.
      { intros i. split; [discriminate |]. intros [Heq _]. by apply app_one_neq in Heq. }
      split; [by intros e [= <-] |]. split; [done |].
      repeat (split; [reflexivity |]). right. eexists. by apply new_calls_app.
  - cbn [ret fst snd]. split.
    { intros i. split; [discriminate |]. intros [Heq _]. by apply app_one_neq in Heq. }
    split; [discriminate |]. split; [done |].
    repeat (split; [reflexivity |]). left. apply new_calls_same.
Qed.

(** ** Prompts: what makes their assembly fail *)





(** Two letters of two bytes each, then one of one: the cut falls between
    letters. *)
Example take_str_code_points :
  take_str 2 "äöb" = "äö" /\ py_len "äöb" = 3%nat /\ take_str 0 "äöb" = ""
  /\ take_str 5 "äöb" = "äöb".
Proof. repeat split; vm_compute; reflexivity. Qed.

Section PromptFailures.
Context `{Interp}.








End PromptFailures.



Lemma kinds_no_uploads (l : list (call * fault)) :
  Forall (fun cf => is_update (fst cf) || is_log (fst cf) = true) l ->
  Forall (fun cf => is_upload (fst cf) = false) l.
Proof.
  intros Hl. eapply Forall_impl; [exact Hl |]. intros [c f]. simpl. by destruct c.
Qed.

(** The calls of a run of [store_user_query]: uploads first, of the images
    given; then the rest, whose updates are those of the ids collected, no
    more of them than images. *)
Lemma store_user_query_calls E self u t images cts s :
  let out := CoachService.store_user_query E self u t images cts s in
  let given := default [] images in
  exists uploads rest ids q,
    new_calls s (snd out) = uploads ++ rest
    /\ Forall (fun cf => upload_of self u cts given (fst cf)) uploads
    /\ (length uploads <= length given)%nat
    /\ Forall (fun cf => is_upload (fst cf) = false) rest
    /\ map fst (List.filter (fun cf => is_update (fst cf)) rest) = update_calls q u cts 0 ids
    /\ (length ids <= length given)%nat
    /\ (forall q' rec,
          user_queries (db (snd out)) = user_queries (db s) ++ [(q', rec)] ->
          q' = q /\ UserQuery.image_attachment_ids rec = ids).
Proof.
  intros out given. subst out given.
  open_summary E self u t images cts s.
  - exists new1, [], [], 1%positive. rewrite app_nil_r.
    split; [by apply new_calls_app |]. split; [done |]. split; [done |].
    split; [constructor |]. split; [done |]. split; [simpl; lia |].
    intros q' rec Heq. by destruct (app_one_neq _ _ (eq_trans (eq_sym Huq1) Heq)).
  - exists new1, [(query_insert u t ids, f)], [], 1%positive.
    split; [apply new_calls_app; simpl; by rewrite Hcalls1, <- app_assoc |].
    split; [done |]. split; [done |].
    split; [by repeat constructor |]. split; [done |]. split; [simpl; lia |].
    intros q' rec Heq. by destruct (app_one_neq _ _ (eq_trans (eq_sym Huq1) Heq)).
  - exists new1, ((query_insert u t ids, NoFault)
                  :: new3 ++ [(query_embedding (next_id (db s1)) emb, f4)]),
      ids, (next_id (db s1)).
    split; [exact (store_user_query_trace s s1 s3 new1 new3 _ _ f4 _ Hcalls1 Hcalls3) |].
    split; [done |]. split; [done |].
    split.
    { constructor; [done |]. apply Forall_app. split; [by apply kinds_no_uploads |].
      by repeat constructor. }
    split.
    { simpl. rewrite List.filter_app. simpl. by rewrite app_nil_r. }
    split; [done |].
    intros q' rec Heq.
    assert (user_queries (db s3) = user_queries (db s) ++ [(q', rec)]) as Heq'
      by (by destruct f4).
    pose proof (eq_trans (eq_sym Huq3) Heq') as Hrow.
    apply app_inv_head in Hrow. by injection Hrow as <- <-.
Qed.

(** X21. The uploads of a run come before every other call; each is the upload
    of one of the images given, for the user given, into the configured
    bucket, under a name that carries the image's position; there are no
    more of them than images, and the query row names no more attachments
    than there were images. *)
Theorem store_user_query_uploads E self u t images cts s :
  let out := CoachService.store_user_query E self u t images cts s in
  let given := default [] images in
  (exists uploads rest,
     new_calls s (snd out) = uploads ++ rest
     /\ Forall (fun cf => upload_of self u cts given (fst cf)) uploads
     /\ (length uploads <= length given)%nat
     /\ Forall (fun cf => is_upload (fst cf) = false) rest)
  /\ (forall q rec,
        user_queries (db (snd out)) = user_queries (db s) ++ [(q, rec)] ->
        (length (UserQuery.image_attachment_ids rec) <= length given)%nat).
Proof.
  intros out given.
  destruct (store_user_query_calls E self u t images cts s)
    as (uploads & rest & ids & q & Hnew & Hof & Hlen & Hrest & _ & Hids & Hrow).
  split; [by exists uploads, rest |].
  intros q' rec Heq. destruct (Hrow q' rec Heq) as [_ ->]. exact Hids.
Qed.

(** ** The page: recording a query *)

(** X22. The page's block never raises and keeps the session's user; signed out
    it stores nothing and leaves the session alone.  Signed in, it hands at
    most the one uploaded file on: every upload it causes carries that
    file's bytes and its reported type (image/png when it reports none),
    and every back-fill update records that same type at index 0, so the
    stored type and the metadata never disagree. *)
Theorem persist_query_outcome E service st query text_query file s :
  let out := App.persist_query E service st query text_query file s in
  let new := new_calls s (snd out) in
  (exists st',
     fst out = Ok st'
     /\ App.user_id st' = App.user_id st
     /\ (truthy_opt (App.user_id st) = false -> st' = st /\ snd out = s))
  /\ (length (List.filter (fun cf => is_upload (fst cf)) new)
      <= match file with Some _ => 1 | None => 0 end)%nat
  /\ (length (List.filter (fun cf => is_update (fst cf)) new)
      <= match file with Some _ => 1 | None => 0 end)%nat
  /\ Forall (fun cf =>
               match fst cf with
               | CUploadAttachment _ _ _ data ct =>
                   exists f, file = Some f /\ data = App.getvalue f
                             /\ ct = or_default (App.type f) "image/png"
               | CTableUpdate _ _ md _ _ =>
                   exists f, file = Some f
                             /\ md !! "content_type"
                                = Some (VStr (or_default (App.type f) "image/png"))
                             /\ md !! "index" = Some (VInt 0)
               | _ => True
               end) new.
Proof.
  intros out new. subst out new. unfold App.persist_query, try_except.
  destruct (truthy_opt (App.user_id st)) eqn:Huid.
  2:{ cbn [ret fst snd]. rewrite new_calls_same.
      split; [exists st; by repeat split |].
      split; [destruct file; simpl; lia |]. split; [destruct file; simpl; lia |].
      constructor. }
  unfold bind.
  set (images := match file with Some f => Some [App.getvalue f] | None => None end).
  set (cts := match file with
              | Some f => Some [or_default (App.type f) "image/png"]
              | None => None
              end).
  set (u := default "" (App.user_id st)).
  set (t := or_default (or_opt query text_query) "").
  destruct (store_user_query_never_raises E service u t images cts s) as [r Hr].
  destruct (store_user_query_calls E service u t images cts s)
    as (uploads & rest & ids & q & Hnew & Hof & Hlen & Hrest & Hupd & Hids & _).
  destruct (CoachService.store_user_query E service u t images cts s) as [res s'].
  cbn [fst snd] in *. subst res. cbn [ret fst snd].
  split; [eexists; split; [reflexivity |]; split; [reflexivity | discriminate] |].
  rewrite Hnew.
  assert (length (default [] images) = match file with Some _ => 1 | None => 0 end)%nat
    as Hgiven by (subst images; by destruct file).
  rewrite Hgiven in Hlen, Hids.
  assert (List.filter (fun cf : call * fault => is_upload (fst cf)) rest = []) as Hnoup.
  { clear -Hrest. induction Hrest as [| [c f] l Hc _ IH]; [done |].
    simpl in *. by rewrite Hc. }
  assert (List.filter (fun cf : call * fault => is_update (fst cf)) uploads = []) as Hnoupd.
  { clear -Hof. induction Hof as [| [c f] l Hc _ IH]; [done |].
    simpl in *. destruct Hc as (j & hex & b & _ & ->). exact IH. }
  split.
  { rewrite List.filter_app, Hnoup, app_nil_r.
    etransitivity; [apply List.filter_length_le | exact Hlen]. }
  split.
  { rewrite List.filter_app, Hnoupd. simpl.
    rewrite <- (length_map fst), Hupd.
    assert (forall i l, length (update_calls q u cts i l) = length l) as Hcount
      by (intros i l; revert i; induction l; intros i; simpl; [done | by rewrite IHl]).
    by rewrite Hcount. }
  apply Forall_app. split.
  - eapply Forall_impl; [exact Hof |]. intros [c f] (j & hex & b & Hj & Hc).
    simpl in Hc. subst c. simpl. subst images cts.
    destruct file as [fl |]; [| by destruct j].
    exists fl. split; [done |]. simpl in Hj.
    destruct j as [| j]; [| by destruct j]. injection Hj as <-. by split.
  - apply Forall_forall. intros [c f] Hin. simpl.
    destruct c as [? ? ? ? ? | ? ? | tb q' md k aid | ? ? ? ? | ?]; try done.
    + rewrite Forall_forall in Hrest. by specialize (Hrest _ Hin).
    + assert (In (CTableUpdate tb q' md k aid) (update_calls q u cts 0 ids)) as Hc.
      { rewrite <- Hupd. apply in_map_iff. exists (CTableUpdate tb q' md k aid, f).
        split; [done |]. apply List.filter_In. split; [by apply list_elem_of_In | done]. }
      subst images cts. destruct file as [fl |].
      * exists fl. split; [done |].
        destruct ids as [| a [| a' ids']]; simpl in Hids; [done | | lia].
        destruct Hc as [[= <- <- <- <- <-] | []]. by split.
      * destruct ids; [done | simpl in Hids; lia].
Qed.

(** A signed-in session with a file that reports no type: the row and the
    metadata both say image/png, and the session keeps the query's id. *)
Example persist_query_signed_in :
  let out :=
    App.persist_query (Scenario.world [] Scenario.calm true) Scenario.service
      {| App.user_id := Some "alice"; App.last_query_id := None |}
      None (Some "What is 2+2?")
      (Some {| App.getvalue := [Byte.x89; Byte.x50]; App.type := None |})
      Scenario.start in
  fst out = Ok {| App.user_id := Some "alice"; App.last_query_id := Some 2%positive |}
  /\ (a ← attachments (db (snd out)) !! 1%positive;
      Some (Attachment.content_type a, Attachment.query_id a,
            Attachment.metadata a !! "content_type"))
     = Some ("image/png", Some 2%positive, Some (VStr "image/png"))
  /\ map (fun q => UserQuery.text_query (snd q)) (user_queries (db (snd out)))
     = ["What is 2+2?"].
Proof. vm_compute. by repeat split. Qed.

(** An entry handed in with a similarity that is no numeral stops
    [generate_explanation] before the model; one with no similarity, and
    with content that is no text, does not. *)
Example generate_explanation_unreadable :
  let W := Scenario.world [] Scenario.calm true in
  CoachService.generate_explanation (H := Scenario.interp) W Scenario.service "What is 2+2?"
    [{["similarity" := VStr "high"]}] None
  = Raise ValueError
  /\ CoachService.generate_explanation (H := Scenario.interp) W Scenario.service
       "What is 2+2?" [{["content" := VNone]}] None
     = Ok "Score: 4/5"
  /\ CoachService.evaluation_prompt (H := Scenario.interp) [{["content" := VNone]}]
       "What is 2+2?" "4" "addition"
     = Raise TypeError.
Proof. vm_compute. by repeat split. Qed.
